(** * lnsync: a directory-to-symlink-farm synchronizer

    A shallow embedding of [lnsync.go] and the verification of its
    specification.  The program watches a list of source directories and
    mirrors the presence of their files as symbolic links in one destination
    directory.  The embedding follows the Go source function by function:
    [cleanDirs] (the start-up reconciliation pass), [UpdateDirs] (the link
    synchronizer), the anonymous control loop of [main] (the event router),
    [InitFSWatch] (a watch session) and the signal [handler].

    The operating system is not part of the repository; the file system
    calls the program makes ([os.Symlink], [os.Remove], [os.Lstat],
    [ioutil.ReadDir], [filepath.EvalSymlinks]) and the two library functions
    on strings ([path.Base], [strings.Split]) are modelled below, each with
    the behaviour of the Go standard library on a POSIX system.

    What the model covers.  A file system is a finite map from directory
    paths to directories; a directory has named entries (regular file,
    subdirectory, symbolic link with its target) and may be closed to
    writing, which is how a call fails with "permission denied".  Nobody but
    the daemon changes the file system.  Link targets are taken as absolute
    paths.  Goroutines are interleaved at their channel operations: a run of
    the daemon is a list of labelled steps.  The daemonisation, the pid and
    log file handling and the parsing of flags are left out. *)

From Stdlib Require Import ZArith Ascii String List Bool Lia.
From stdpp Require Import base option list gmap fin_maps strings.

Local Open Scope Z_scope.

(* ===================================================================== *)
(** * Strings and paths *)
(* ===================================================================== *)

Definition is_slash (c : ascii) : bool := Ascii.eqb c "/"%char.

(** [no_slash s]: the byte '/' does not occur in [s]. *)
Fixpoint no_slash (s : string) : bool :=
  match s with
  | EmptyString => true
  | String c s' => negb (is_slash c) && no_slash s'
  end.

(** [cut_last_slash s] cuts [s] at its last '/': [Some (before, after)], or
    [None] when [s] has no '/' (Go: [strings.LastIndex(s, "/")]). *)
Fixpoint cut_last_slash (s : string) : option (string * string) :=
  match s with
  | EmptyString => None
  | String c s' =>
      match cut_last_slash s' with
      | Some (d, n) => Some (String c d, n)
      | None => if is_slash c then Some (EmptyString, s') else None
      end
  end.

(** The loop [for len(path) > 0 && path[len(path)-1] == '/'] of [path.Base]. *)
Fixpoint strip_trailing_slashes (s : string) : string :=
  match s with
  | EmptyString => EmptyString
  | String c s' =>
      match strip_trailing_slashes s' with
      | EmptyString => if is_slash c then EmptyString else String c EmptyString
      | r => String c r
      end
  end.

Module path.

(** Go's [path.Base]: the last element of a path.  Trailing slashes are
    removed first; the empty path gives ".", a path of slashes gives "/". *)
Definition Base (p : string) : string :=
  if String.eqb p "" then "."
  else
    let p1 := strip_trailing_slashes p in
    let p2 := match cut_last_slash p1 with
              | Some (_, n) => n
              | None => p1
              end in
    if String.eqb p2 "" then "/" else p2.

End path.

Module strings.

(** Go's [strings.Split(s, sep)] for a separator of one byte.  The result is
    never empty: splitting the empty string gives one empty field. *)
Fixpoint Split (s : string) (sep : ascii) : list string :=
  match s with
  | EmptyString => [EmptyString]
  | String c s' =>
      match Split s' sep with
      | hd :: tl => if Ascii.eqb c sep then EmptyString :: hd :: tl
                    else String c hd :: tl
      | [] => [String c EmptyString]
      end
  end.

End strings.

(** A name a directory entry can have: not empty, not "." or "..", no '/'. *)
Definition valid_name (n : string) : bool :=
  negb (String.eqb n "") && negb (String.eqb n ".") &&
  negb (String.eqb n "..") && no_slash n.

(* ===================================================================== *)
(** * The file system *)
(* ===================================================================== *)

(** What a directory entry is.  A symbolic link carries its target path. *)
Inductive node : Type :=
| RegularFile
| Subdir
| Symlink (target : string).

Global Instance node_eq_dec : EqDecision node.
Proof. solve_decision. Defined.

(** A directory: its entries by name, and whether the process may create and
    remove entries in it. *)
Record dir : Type := Dir {
  entries : gmap string node;
  writable : bool
}.

Global Instance dir_eq_dec : EqDecision dir.
Proof. solve_decision. Defined.

(** The file system: the directories, by the path they are opened with.
    A path [d ++ "/" ++ n] names the entry [n] of the directory [d]; paths
    are not normalised (["/a"] and ["/a/"] are different keys) and link
    targets are looked up as they are written. *)
Abbreviation FS := (gmap string dir).

Definition set_entries (d : dir) (es : gmap string node) : dir :=
  {| entries := es; writable := writable d |}.

(** Split a path into the directory part and the entry name. *)
Definition split_path (p : string) : option (string * string) := cut_last_slash p.

Definition lookup_path (fs : FS) (p : string) : option node :=
  match split_path p with
  | Some (d, n) =>
      match fs !! d with
      | Some dr => entries dr !! n
      | None => None
      end
  | None => None
  end.

(** [syscall.Errno] values the modelled calls can return. *)
Inductive Errno : Type := EEXIST | ENOENT | EACCES | ENOTEMPTY | EINVAL.

Definition Errno_Error (e : Errno) : string :=
  match e with
  | EEXIST => "file exists"
  | ENOENT => "no such file or directory"
  | EACCES => "permission denied"
  | ENOTEMPTY => "directory not empty"
  | EINVAL => "invalid argument"
  end.

(** Go's [error] values the program can see: [*os.PathError],
    [*os.LinkError], and the plain error of [filepath.EvalSymlinks]. *)
Inductive error : Type :=
| PathError (Op Path : string) (Err : Errno)
| LinkError (Op Old New : string) (Err : Errno)
| ErrorString (s : string).

(** The [Error()] method. *)
Definition Error (e : error) : string :=
  match e with
  | PathError op p err => op +:+ " " +:+ p +:+ ": " +:+ Errno_Error err
  | LinkError op old new err =>
      op +:+ " " +:+ old +:+ " " +:+ new +:+ ": " +:+ Errno_Error err
  | ErrorString s => s
  end.

(** A Go call returning [(value, error)]. *)
Inductive Result (A : Type) : Type :=
| Ok (a : A)
| Failed (err : error).
Arguments Ok {A} a.
Arguments Failed {A} err.

Definition is_ok {A} (r : Result A) : bool :=
  match r with Ok _ => true | Failed _ => false end.

(** [os.FileInfo], as far as the program reads it. *)
Record FileInfo : Type := mkFileInfo {
  fi_Name : string;
  fi_Mode : Z
}.

Module os.

(** [os.FileMode] bits. *)
Definition ModeDir : Z := Z.shiftl 1 31.
Definition ModeSymlink : Z := Z.shiftl 1 27.

Definition mode_of (nd : node) : Z :=
  match nd with
  | RegularFile => 420                     (* 0644 *)
  | Subdir => Z.lor ModeDir 493            (* d | 0755 *)
  | Symlink _ => Z.lor ModeSymlink 511     (* L | 0777 *)
  end.

(** [os.Lstat(name)]: describes the entry itself, links are not followed. *)
Definition Lstat (fs : FS) (name : string) : Result FileInfo :=
  match split_path name with
  | Some (d, n) =>
      match lookup_path fs name with
      | Some nd => Ok (mkFileInfo n (mode_of nd))
      | None => Failed (PathError "lstat" name ENOENT)
      end
  | None => Failed (PathError "lstat" name ENOENT)
  end.

(** [os.Symlink(oldname, newname)]: creates [newname] as a link to
    [oldname].  It never replaces an existing entry.  The names "", "." and
    ".." denote a directory that exists already. *)
Definition Symlink (fs : FS) (oldname newname : string) : Result FS :=
  match split_path newname with
  | Some (d, n) =>
      match fs !! d with
      | Some dr =>
          if negb (valid_name n) then
            Failed (LinkError "symlink" oldname newname EEXIST)
          else
            match entries dr !! n with
            | Some _ => Failed (LinkError "symlink" oldname newname EEXIST)
            | None =>
                if writable dr then
                  Ok (<[d := set_entries dr (<[n := Symlink oldname]> (entries dr))]> fs)
                else Failed (LinkError "symlink" oldname newname EACCES)
            end
      | None => Failed (LinkError "symlink" oldname newname ENOENT)
      end
  | None => Failed (LinkError "symlink" oldname newname ENOENT)
  end.

(** Is the directory opened as [p] empty?  A subdirectory the model holds no
    listing for has no entries. *)
Definition dir_is_empty (fs : FS) (p : string) : bool :=
  match fs !! p with
  | Some dr => bool_decide (entries dr = ∅)
  | None => true
  end.

(** [os.Remove(name)]: unlink(2), then rmdir(2) when that fails.  A file or
    link is unlinked whatever it is or points to; a directory is removed when
    it is empty.  Removing a directory through "", "." or ".." is refused. *)
Definition Remove (fs : FS) (name : string) : Result FS :=
  match split_path name with
  | Some (d, n) =>
      match fs !! d with
      | Some dr =>
          if negb (valid_name n) then Failed (PathError "remove" name EINVAL)
          else
            match entries dr !! n with
            | None => Failed (PathError "remove" name ENOENT)
            | Some nd =>
                if negb (writable dr) then Failed (PathError "remove" name EACCES)
                else
                  match nd with
                  | Subdir =>
                      if dir_is_empty fs name then
                        Ok (delete name (<[d := set_entries dr (delete n (entries dr))]> fs))
                      else Failed (PathError "remove" name ENOTEMPTY)
                  | _ => Ok (<[d := set_entries dr (delete n (entries dr))]> fs)
                  end
            end
      | None => Failed (PathError "remove" name ENOENT)
      end
  | None => Failed (PathError "remove" name ENOENT)
  end.

End os.

Module filepath.

(** The number of links [filepath.EvalSymlinks] follows before it gives up
    with "too many links". *)
Definition maxLinks : nat := 255.

(** Follow the links from [p]: the path of the file or directory reached, or
    the error of the first entry that does not exist. *)
Fixpoint walkSymlinks (fuel : nat) (fs : FS) (p : string) : Result string :=
  match lookup_path fs p with
  | None => Failed (PathError "lstat" p ENOENT)
  | Some (Symlink t) =>
      match fuel with
      | O => Failed (ErrorString "EvalSymlinks: too many links")
      | S k => walkSymlinks k fs t
      end
  | Some _ => Ok p
  end.

Definition EvalSymlinks (fs : FS) (p : string) : Result string :=
  walkSymlinks maxLinks fs p.

End filepath.

Module ioutil.

(** Insertion into a list of names sorted by byte order. *)
Fixpoint insert_sorted (n : string) (l : list string) : list string :=
  match l with
  | [] => [n]
  | m :: l' => if String.leb n m then n :: m :: l' else m :: insert_sorted n l'
  end.

Definition sort_names (l : list string) : list string :=
  foldr insert_sorted [] l.

(** [ioutil.ReadDir(dirname)]: the entries of the directory, sorted by file
    name; fails when the directory cannot be opened. *)
Definition ReadDir (fs : FS) (dirname : string) : Result (list FileInfo) :=
  match fs !! dirname with
  | Some dr =>
      Ok (omap (fun n => match entries dr !! n with
                         | Some nd => Some (mkFileInfo n (os.mode_of nd))
                         | None => None
                         end)
               (sort_names (elements (dom (entries dr)))))
  | None => Failed (PathError "open" dirname ENOENT)
  end.

End ioutil.

(* ===================================================================== *)
(** * The program state *)
(* ===================================================================== *)

(** What the program acts on: the file system and the log file (package
    [log] writes one line per call). *)
Record World : Type := mkWorld {
  fs : gmap string dir;
  logs : list string
}.

Module log.

Definition Println (line : string) (w : World) : World :=
  {| fs := fs w; logs := logs w ++ [line] |}.

End log.

Definition set_fs (w : World) (fs' : gmap string dir) : World :=
  {| fs := fs'; logs := logs w |}.

(* ===================================================================== *)
(** * The data of lnsync.go *)
(* ===================================================================== *)

(** The four channels [main] makes; every [Directory] holds the same four. *)
Inductive chan : Type := chanQuit | chanExit | chanWatcheQuit | chanUpdate.

Global Instance chan_eq_dec : EqDecision chan.
Proof. solve_decision. Defined.

(** [fsnotify.FileEvent] is a type of an outside library.  The program reads
    its [Name] and asks [IsCreate()] and [IsDelete()]; an event is modelled
    by the name and the two answers. *)
Record FileEvent : Type := mkFileEvent {
  Name : string;
  IsCreate : bool;
  IsDelete : bool
}.

Record Directory : Type := mkDirectory {
  Path : string;
  Update : chan;
  Quit : chan;
  WatcherQuit : chan;
  Exit : chan
}.

Record UpdateHeader : Type := mkUpdateHeader {
  Event : FileEvent;
  HPath : Directory
}.

(* ===================================================================== *)
(** * cleanDirs: the reconciliation pass *)
(* ===================================================================== *)

(** The first loop of [cleanDirs]: list every source directory and record
    [filenames[f.Name()] = source.Path]; the first listing that fails ends
    it. *)
Fixpoint list_sources (fs : FS) (sources : list Directory)
    (filenames : gmap string string) : Result (gmap string string) :=
  match sources with
  | [] => Ok filenames
  | source :: rest =>
      match ioutil.ReadDir fs (Path source) with
      | Failed err => Failed err
      | Ok files =>
          list_sources fs rest
            (foldl (fun m f => <[fi_Name f := Path source]> m) filenames files)
      end
  end.

(** The second loop of [cleanDirs], over the listing of the destination. *)
Fixpoint prune (target : string) (files : list FileInfo) (w : World)
    : World * option error :=
  match files with
  | [] => (w, None)
  | f :: rest =>
      match os.Lstat (fs w) (target +:+ "/" +:+ fi_Name f) with
      | Failed err => (w, Some err)
      | Ok info =>
          if Z.land (fi_Mode info) os.ModeSymlink =? os.ModeSymlink then
            match filepath.EvalSymlinks (fs w) (target +:+ "/" +:+ fi_Name f) with
            | Failed _ =>
                let w1 := log.Println
                            ("Unresolved link: " +:+ target +:+ "/" +:+ fi_Name f +:+ ". Deleted") w in
                match os.Remove (fs w1) (target +:+ "/" +:+ fi_Name f) with
                | Failed err => (w1, Some err)
                | Ok fs' => prune target rest (set_fs w1 fs')
                end
            | Ok _ => prune target rest w
            end
          else prune target rest w
      end
  end.

Definition cleanDirs (sources : list Directory) (target : string) (w : World)
    : World * option error :=
  match list_sources (fs w) sources ∅ with
  | Failed err => (w, Some err)
  | Ok filenames =>
      match ioutil.ReadDir (fs w) target with
      | Failed err => (w, Some err)
      | Ok files => prune target files w
      end
  end.

(* ===================================================================== *)
(** * UpdateDirs: the link synchronizer *)
(* ===================================================================== *)

(** The [if updated.Event.IsCreate()] block: [inr] is its early return. *)
Definition UpdateDirs_create (dist : string) (updated : UpdateHeader) (w : World)
    : World + World * option error :=
  if IsCreate (Event updated) then
    match os.Symlink (fs w) (Name (Event updated))
                     (dist +:+ "/" +:+ path.Base (Name (Event updated))) with
    | Failed err => inr (log.Println (Error err) w, Some err)
    | Ok fs' => inl (log.Println ("Updated link: " +:+ Name (Event updated)) (set_fs w fs'))
    end
  else inl w.

(** The [if updated.Event.IsDelete()] block and the final [return nil]. *)
Definition UpdateDirs_delete (dist : string) (updated : UpdateHeader) (w : World)
    : World * option error :=
  if IsDelete (Event updated) then
    match os.Remove (fs w) (dist +:+ "/" +:+ path.Base (Name (Event updated))) with
    | Failed err => (log.Println (Error err) w, Some err)
    | Ok fs' =>
        (log.Println ("Delete link: " +:+ dist +:+ "/" +:+ path.Base (Name (Event updated)))
                     (set_fs w fs'), None)
    end
  else (w, None).

Definition UpdateDirs (d : Directory) (dist : string) (updated : UpdateHeader)
    (w : World) : World * option error :=
  match UpdateDirs_create dist updated w with
  | inr ret => ret
  | inl w1 => UpdateDirs_delete dist updated w1
  end.

(* ===================================================================== *)
(** * Process control: os.Exit, log.Fatalln, the signal handler *)
(* ===================================================================== *)

(** A piece of [main] either goes on with a value or ends the process with
    an exit code; what follows an [os.Exit] never runs. *)
Inductive Control (A : Type) : Type :=
| Continue (a : A)
| ProcessExit (code : Z).
Arguments Continue {A} a.
Arguments ProcessExit {A} code.

Definition Proc (A : Type) : Type := World -> World * Control A.

Global Instance Proc_ret : MRet Proc := fun A a w => (w, Continue a).

Global Instance Proc_bind : MBind Proc := fun A B k m w =>
  match m w with
  | (w1, Continue a) => k a w1
  | (w1, ProcessExit code) => (w1, ProcessExit code)
  end.

Definition os_Exit {A} (code : Z) : Proc A := fun w => (w, ProcessExit code).

(** A function of the program that returns: it goes on with its result. *)
Definition call {A} (f : World -> World * A) : Proc A :=
  fun w => let '(w1, a) := f w in (w1, Continue a).

Definition log_Println (line : string) : Proc unit :=
  fun w => (log.Println line w, Continue tt).

(** [log.Fatalln] is [Println] followed by [os.Exit(1)]. *)
Definition log_Fatalln {A} (line : string) : Proc A :=
  log_Println line ;; os_Exit 1.

Module syscall.
Definition SIGHUP : Z := 1.
Definition SIGTERM : Z := 15.

(** The [String()] method of [syscall.Signal], for the two signals the
    daemon registers a command for. *)
Definition Signal_String (sig : Z) : string :=
  if sig =? SIGTERM then "terminated"
  else if sig =? SIGHUP then "hangup"
  else "signal".
End syscall.

Module daemon.
Definition ErrStop : error := ErrorString "stop serve signals".
End daemon.

(** The closure [handler] of [main]. *)
Definition handler (sig : Z) : Proc (option error) :=
  log_Println ("signal: " +:+ syscall.Signal_String sig) ;;
  if sig =? syscall.SIGTERM then
    (@os_Exit unit 0 ;; mret (Some daemon.ErrStop))
  else mret None.

(* ===================================================================== *)
(** * The event router: the control loop of main *)
(* ===================================================================== *)

(** Go's [int] is 64 bits wide on the platforms the daemon runs on. *)
Definition int_wrap (z : Z) : Z := (z + 2 ^ 63) mod 2 ^ 64 - 2 ^ 63.

(** What the [select] can receive. *)
Inductive msg : Type :=
| RecvQuit                              (* <-chanQuit *)
| RecvUpdate (fileUpdate : UpdateHeader) (* <-chanUpdate *)
| RecvExit.                             (* <-chanExit *)

(** What the loop body does to the outside: a send on a channel, or the
    start of a goroutine running [UpdateDirs]. *)
Inductive action : Type :=
| Send (c : chan)
| GoUpdateDirs (d : Directory) (dist : string) (updated : UpdateHeader).

(** One [select]: the case taken for the message received. *)
Definition router_select (manageDirs : list Directory) (distanation : string)
    (exitCnt : Z) (m : msg) : list action * Z :=
  match m with
  | RecvQuit => (map (fun dir => Send (WatcherQuit dir)) manageDirs, exitCnt)
  | RecvUpdate fileUpdate =>
      ([GoUpdateDirs (HPath fileUpdate) distanation fileUpdate], exitCnt)
  | RecvExit => ([], int_wrap (exitCnt - 1))
  end.

Record RouterRun : Type := mkRouterRun {
  emitted : list action;   (* what the loop did, in order *)
  count : Z;               (* exitCnt when the run ends *)
  returned : bool;         (* the loop executed its [return] *)
  unread : list msg        (* messages it never received *)
}.

(** The [for { select {...}; if exitCnt == 0 { return } }] loop, run on the
    messages that arrive, in the order the [select] takes them. *)
Fixpoint router (manageDirs : list Directory) (distanation : string)
    (exitCnt : Z) (inbox : list msg) : RouterRun :=
  match inbox with
  | [] => mkRouterRun [] exitCnt false []
  | m :: rest =>
      let '(acts, c) := router_select manageDirs distanation exitCnt m in
      if c =? 0 then mkRouterRun acts c true rest
      else
        let r := router manageDirs distanation c rest in
        mkRouterRun (acts ++ emitted r) (count r) (returned r) (unread r)
  end.

(* ===================================================================== *)
(** * main: start-up *)
(* ===================================================================== *)

(** [main] from the split of the [-s] flag at its commas to
    [exitCnt := len(manageDirs)]: the directories it manages and the initial
    count, unless the process ends first. *)
Definition main_start (source distanation : string) : Proc (list Directory * Z) :=
  let dirs := strings.Split source ","%char in
  if (Z.of_nat (length dirs) =? 0) || (Z.of_nat (String.length distanation) =? 0) then
    os_Exit 1
  else
    let manageDirs :=
      map (fun dir => mkDirectory dir chanUpdate chanQuit chanWatcheQuit chanExit) dirs in
    log_Println "Starting pre-cleaner process" ;;
    err ← call (cleanDirs manageDirs distanation) ;
    match err with
    | Some e => log_Fatalln ("First clean dirs was corrapted: " +:+ Error e)
    | None => mret (manageDirs, Z.of_nat (length manageDirs))
    end.

(* ===================================================================== *)
(** * The running daemon: watch sessions, router and signals together *)
(* ===================================================================== *)

(** Where the goroutine [InitFSWatch] of a directory is. *)
Inductive SessionState : Type :=
| Idle        (* before [StartFSWatch] has registered the watch *)
| Watching    (* blocked in [<-d.WatcherQuit] *)
| Draining    (* quit received, blocked in [d.Exit <- true] *)
| Releasing   (* exit acknowledged, before [d.fileWatcher.Close()] *)
| Stopped.    (* [InitFSWatch] has returned *)

Global Instance SessionState_eq_dec : EqDecision SessionState.
Proof. solve_decision. Defined.

(** What moves a session on: its watch is registered, it receives from
    [WatcherQuit], its send on [Exit] is taken, it closes the watcher. *)
Inductive SessionEvent : Type :=
| WatchAdded | QuitReceived | ExitSent | WatcherClosed.

(** [InitFSWatch] after the watcher is made: [d.StartFSWatch()], then
    [<-d.WatcherQuit], then [d.Exit <- true], then [d.fileWatcher.Close()],
    in this order and once each. *)
Definition InitFSWatch (st : SessionState) (e : SessionEvent) : option SessionState :=
  match st, e with
  | Idle, WatchAdded => Some Watching
  | Watching, QuitReceived => Some Draining
  | Draining, ExitSent => Some Releasing
  | Releasing, WatcherClosed => Some Stopped
  | _, _ => None
  end.

(** [StartFSWatch]: the watch is asked for and the line is logged; a watch
    that cannot be added (the directory does not exist) is logged and the
    session goes on unmonitored. *)
Definition StartFSWatch (d : Directory) (w : World) : World :=
  let w1 := log.Println ("Add directory for watch: " +:+ Path d) w in
  match fs w !! Path d with
  | Some _ => w1
  | None =>
      log.Println ("FS Monitor error monitor path [" +:+ Path d +:+ "]: "
                   +:+ Errno_Error ENOENT) w1
  end.

(** A session whose watcher is open can hand events to the router: the
    goroutine [fsEvent] forwards every event of the watcher on [d.Update]. *)
Definition fsEvent (st : SessionState) : bool :=
  bool_decide (st = Watching \/ st = Draining \/ st = Releasing).

Record System : Type := mkSystem {
  manageDirs : list Directory;
  distanation : string;
  sessions : list SessionState;       (* one per element of [manageDirs] *)
  exitCnt : Z;
  forwarding : list chan;             (* sends of the quit case still to make *)
  routerDone : bool;                  (* the control loop has returned *)
  tasks : list (Directory * string * UpdateHeader);
    (* the goroutines [go UpdateDirs] not yet run; they run in any order, one
       at a time: each makes its file system calls without a suspension *)
  world : World;
  exited : option Z                   (* the exit code, once the process ended *)
}.

(** The statements of the program that send on each channel:
    [d.Update <- ...] in [fsEvent], [d.Exit <- true] in [InitFSWatch],
    [dir.WatcherQuit <- true] in the router.  Nothing sends on [chanQuit]:
    the field [Quit] is never used and [main] only receives from it. *)
Inductive sender : Type := in_fsEvent | in_InitFSWatch | in_router.

Definition senders (c : chan) : list sender :=
  match c with
  | chanUpdate => [in_fsEvent]
  | chanExit => [in_InitFSWatch]
  | chanWatcheQuit => [in_router]
  | chanQuit => []
  end.

Inductive label : Type :=
| StartWatch (i : nat)                 (* [StartFSWatch] of session [i] returns *)
| Notify (i : nat) (ev : FileEvent)    (* [fsEvent] of session [i] hands an event to the router *)
| RunTask (k : nat)                    (* the [k]-th waiting goroutine [UpdateDirs] runs *)
| GlobalQuit                           (* the router receives from [chanQuit] *)
| ForwardQuit (i : nat)                (* session [i] receives the router's quit *)
| ExitAck (i : nat)                    (* the router receives the exit of session [i] *)
| CloseWatcher (i : nat)               (* session [i] closes its watcher and returns *)
| Deliver (sig : Z).                   (* a registered signal reaches [handler] *)

Definition at_select (s : System) : bool :=
  negb (routerDone s) && bool_decide (forwarding s = []).

(** The router takes the [select] case of [m]; sends go to [forwarding],
    goroutines to [tasks]; the test [exitCnt == 0] follows once no send is
    left. *)
Definition router_receive (m : msg) (s : System) : System :=
  let '(acts, c) := router_select (manageDirs s) (distanation s) (exitCnt s) m in
  let sends := omap (fun a => match a with Send ch => Some ch | _ => None end) acts in
  let spawned := omap (fun a => match a with
                                | GoUpdateDirs d dist u => Some (d, dist, u)
                                | _ => None
                                end) acts in
  mkSystem (manageDirs s) (distanation s) (sessions s) c sends
           (match sends with [] => c =? 0 | _ => false end)
           (tasks s ++ spawned) (world s) (exited s).

Definition set_session (i : nat) (st : SessionState) (s : System) : System :=
  mkSystem (manageDirs s) (distanation s) (<[i := st]> (sessions s)) (exitCnt s)
           (forwarding s) (routerDone s) (tasks s) (world s) (exited s).

Definition set_world (w : World) (s : System) : System :=
  mkSystem (manageDirs s) (distanation s) (sessions s) (exitCnt s)
           (forwarding s) (routerDone s) (tasks s) w (exited s).

Definition step (l : label) (s : System) : option System :=
  match exited s with
  | Some _ => None
  | None =>
    match l with
    | StartWatch i =>
        match sessions s !! i, manageDirs s !! i with
        | Some st, Some d =>
            match InitFSWatch st WatchAdded with
            | Some st' => Some (set_session i st' (set_world (StartFSWatch d (world s)) s))
            | None => None
            end
        | _, _ => None
        end
    | Notify i ev =>
        match sessions s !! i, manageDirs s !! i with
        | Some st, Some d =>
            if fsEvent st && at_select s && bool_decide (senders (Update d) ≠ [])
            then Some (router_receive (RecvUpdate (mkUpdateHeader ev d)) s)
            else None
        | _, _ => None
        end
    | RunTask k =>
        match tasks s !! k with
        | Some (d, dist, u) =>
            Some (mkSystem (manageDirs s) (distanation s) (sessions s) (exitCnt s)
                    (forwarding s) (routerDone s) (delete k (tasks s))
                    (fst (UpdateDirs d dist u (world s))) (exited s))
        | None => None
        end
    | GlobalQuit =>
        if at_select s && bool_decide (senders chanQuit ≠ [])
        then Some (router_receive RecvQuit s) else None
    | ForwardQuit i =>
        match forwarding s, sessions s !! i, manageDirs s !! i with
        | ch :: rest, Some st, Some d =>
            match InitFSWatch st QuitReceived with
            | Some st' =>
                if bool_decide (WatcherQuit d = ch) then
                  Some (mkSystem (manageDirs s) (distanation s) (<[i := st']> (sessions s))
                          (exitCnt s) rest
                          (match rest with [] => exitCnt s =? 0 | _ => false end)
                          (tasks s) (world s) (exited s))
                else None
            | None => None
            end
        | _, _, _ => None
        end
    | ExitAck i =>
        match sessions s !! i with
        | Some st =>
            match InitFSWatch st ExitSent with
            | Some st' =>
                if at_select s then Some (set_session i st' (router_receive RecvExit s))
                else None
            | None => None
            end
        | None => None
        end
    | CloseWatcher i =>
        match sessions s !! i with
        | Some st =>
            match InitFSWatch st WatcherClosed with
            | Some st' => Some (set_session i st' s)
            | None => None
            end
        | None => None
        end
    | Deliver sig =>
        if bool_decide (sig = syscall.SIGTERM ∨ sig = syscall.SIGHUP) then
          let '(w1, ctl) := handler sig (world s) in
          Some (mkSystem (manageDirs s) (distanation s) (sessions s) (exitCnt s)
                  (forwarding s) (routerDone s) (tasks s) w1
                  (match ctl with
                   | ProcessExit code => Some code
                   | Continue (Some _) => Some 0   (* [ServeSignals] returns, [main] ends *)
                   | Continue None => None
                   end))
        else None
    end
  end.

Fixpoint run (ls : list label) (s : System) : option System :=
  match ls with
  | [] => Some s
  | l :: ls' => match step l s with
                | Some s1 => run ls' s1
                | None => None
                end
  end.

(** The daemon once [main_start] has gone through: every session spawned,
    the router at its [select], no signal received yet. *)
Definition init (manageDirs : list Directory) (distanation : string) (cnt : Z)
    (w : World) : System :=
  mkSystem manageDirs distanation (map (fun _ => Idle) manageDirs) cnt [] false [] w None.

(* ===================================================================== *)
(** * The vocabulary of the claims and the examples they are tried on *)
(* ===================================================================== *)

Definition dest_path (target n : string) : string := target +:+ "/" +:+ n.

(** The directory [target] with the entry [n] taken out. *)
Definition without (target n : string) (dr : dir) (fs : gmap string dir)
    : gmap string dir :=
  <[target := set_entries dr (delete n (entries dr))]> fs.

(** [filepath.EvalSymlinks] returns no error on [p]. *)
Definition resolves (fs : gmap string dir) (p : string) : bool :=
  is_ok (filepath.EvalSymlinks fs p).

(** The entry [n] of [target] is a symbolic link that does not resolve. *)
Definition dangling (fs : gmap string dir) (target n : string) : bool :=
  match lookup_path fs (dest_path target n) with
  | Some (Symlink _) => negb (resolves fs (dest_path target n))
  | _ => false
  end.

Definition unresolved_line (target n : string) : string :=
  "Unresolved link: " +:+ target +:+ "/" +:+ n +:+ ". Deleted".

(** The names among [names] whose entry is a dangling link. *)
Definition doomed (fs : gmap string dir) (target : string) (names : list string)
    : list string :=
  List.filter (dangling fs target) names.

Definition remove_names (l : list string) (es : gmap string node) : gmap string node :=
  foldl (fun m n => delete n m) es l.

(** The names of a directory are valid entry names. *)
Definition valid_names (dr : dir) : Prop :=
  map_Forall (fun n _ => valid_name n = true) (entries dr).

Definition listed (dr : dir) (files : list FileInfo) : Prop :=
  Forall (fun f => valid_name (fi_Name f) = true /\ is_Some (entries dr !! fi_Name f)) files.

(** The names [ioutil.ReadDir] returns for a directory. *)
Definition names_of (dr : dir) : list string :=
  ioutil.sort_names (elements (dom (entries dr))).

(** Every source directory can be listed. *)
Definition sources_listable (fs : gmap string dir) (sources : list Directory) : Prop :=
  Forall (fun s => is_ok (ioutil.ReadDir fs (Path s)) = true) sources.

(** The dangling links of the destination, in the order of its listing. *)
Definition dangling_links (fs : gmap string dir) (target : string) (dr : dir)
    : list string :=
  doomed fs target (names_of dr).

Definition mkDir (p : string) : Directory :=
  mkDirectory p chanUpdate chanQuit chanWatcheQuit chanExit.

(** The scenario of the specification: sources [A = {x.txt}] and
    [B = {y.txt}], destination [D = {stale -> /gone}]. *)
Definition ex_A : dir := Dir {["x.txt" := RegularFile]} true.
Definition ex_B : dir := Dir {["y.txt" := RegularFile]} true.
Definition ex_D : dir := Dir {["stale" := Symlink "/gone"]} true.
Definition ex_fs : gmap string dir :=
  <["/A" := ex_A]> (<["/B" := ex_B]> {["/D" := ex_D]}).
Definition ex_world : World := mkWorld ex_fs [].
Definition ex_sources : list Directory := [mkDir "/A"; mkDir "/B"].


(** The daemon [main] brings up: the running system, unless start-up ended
    the process.  The watch sessions, which [main] starts before the
    reconciliation pass, do not touch the file system; they take their first
    step here once the pass is over. *)
Definition boot (source distanation : string) (w : World) : World * option System :=
  match main_start source distanation w with
  | (w1, Continue (dirs, cnt)) => (w1, Some (init dirs distanation cnt w1))
  | (w1, ProcessExit _) => (w1, None)
  end.

(** The directories [main] manages for the flag [-s source]. *)
Definition managed (source : string) : list Directory :=
  map (fun dir => mkDirectory dir chanUpdate chanQuit chanWatcheQuit chanExit)
      (strings.Split source ","%char).

(** A destination the daemon may not write to, holding a dangling link. *)
Definition ex_fs_readonly : gmap string dir :=
  <["/A" := ex_A]> {["/D" := Dir {["stale" := Symlink "/gone"]} false]}.

Definition creation (f : string) (src : string) : UpdateHeader :=
  mkUpdateHeader (mkFileEvent f true false) (mkDir src).

Definition deletion (f : string) (src : string) : UpdateHeader :=
  mkUpdateHeader (mkFileEvent f false true) (mkDir src).

(** A link of another source directory under the name of the deleted file. *)
Definition ex_fs_foreign : gmap string dir :=
  <["/A" := ex_A]> {["/D" := Dir {["x.txt" := Symlink "/B/x.txt"]} true]}.



Definition is_exit (m : msg) : bool :=
  match m with RecvExit => true | _ => false end.

(** The number of exit acknowledgments among the messages. *)
Definition count_exits (l : list msg) : Z :=
  Z.of_nat (length (List.filter is_exit l)).

(** Two sessions: a quit, the first exit, an event, the second exit, and a
    message that comes too late. *)
Definition ex_inbox : list msg :=
  [RecvQuit; RecvExit; RecvUpdate (creation "/A/x.txt" "/A"); RecvExit; RecvQuit].

(** No session has been told to quit and the router has no quit to send. *)
Definition no_quit_yet (s : System) : Prop :=
  Forall (fun st => st = Idle \/ st = Watching) (sessions s) /\ forwarding s = [].


(** An event for which [IsCreate()] and [IsDelete()] both answer yes. *)
Definition create_and_delete (f : string) (src : string) : UpdateHeader :=
  mkUpdateHeader (mkFileEvent f true true) (mkDir src).

(** A destination with a link that points at itself, a link to that link, a
    link to a file of [A], and a plain file. *)
Definition ex_D_links : dir :=
  Dir (<["loop" := Symlink "/D/loop"]>
        (<["via" := Symlink "/D/loop"]>
          (<["good" := Symlink "/A/x.txt"]> {["plain" := RegularFile]}))) true.

Definition ex_fs_links : gmap string dir :=
  <["/A" := ex_A]> {["/D" := ex_D_links]}.

(** The notifications among the messages, in order. *)
Definition updates_of (l : list msg) : list UpdateHeader :=
  omap (fun m => match m with RecvUpdate u => Some u | _ => None end) l.

(** The goroutines among the actions of the router, in order. *)
Definition goroutines (acts : list action) : list (Directory * string * UpdateHeader) :=
  omap (fun a => match a with
                 | GoUpdateDirs d dist u => Some (d, dist, u)
                 | Send _ => None
                 end) acts.

(** The channel sends among the actions of the router, in order. *)
Definition sends_of (acts : list action) : list chan :=
  omap (fun a => match a with Send ch => Some ch | GoUpdateDirs _ _ _ => None end) acts.

Definition is_quit (m : msg) : bool :=
  match m with RecvQuit => true | _ => false end.






(** The router has received the exit of the session. *)
Definition acked (st : SessionState) : bool :=
  match st with Releasing | Stopped => true | _ => false end.

(** The sessions whose exit the router has not received. *)
Definition outstanding (l : list SessionState) : Z :=
  Z.of_nat (length (List.filter (fun st => negb (acked st)) l)).

(** The count of the router is the number of sessions it has not heard the
    exit of, and its loop has returned only at count zero. *)
Definition count_inv (s : System) : Prop :=
  exitCnt s = outstanding (sessions s) /\ outstanding (sessions s) < 2 ^ 63 /\
  (routerDone s = true -> exitCnt s = 0).

Definition is_RunTask (l : label) : bool :=
  match l with RunTask _ => true | _ => false end.

Definition is_Notify (l : label) : bool :=
  match l with Notify _ _ => true | _ => false end.

(** The daemon of the scenario once booted, with both sessions watching,
    and the state it would be in had the router received a quit. *)
Definition ex_sys_watching : System :=
  mkSystem ex_sources "/D" [Watching; Watching] 2 [] false []
           (mkWorld (<["/D" := Dir ∅ true]> ex_fs) []) None.

Definition ex_sys_quit : System := router_receive RecvQuit ex_sys_watching.

Definition ex_quit_run : list label :=
  [ForwardQuit 0; ForwardQuit 1; Notify 1 (mkFileEvent "/B/y.txt" true false);
   ExitAck 0; RunTask 0; ExitAck 1; CloseWatcher 0; CloseWatcher 1].

Definition ex_sys_stopped : System :=
  mkSystem ex_sources "/D" [Stopped; Stopped] 0 [] true []
           (mkWorld (<["/D" := Dir {["y.txt" := Symlink "/B/y.txt"]} true]> ex_fs)
                    ["Updated link: /B/y.txt"]) None.

(* ===================================================================== *)
(** * Facts about strings and paths *)
(* ===================================================================== *)

Lemma append_String (c : ascii) (s t : string) :
  String c s +:+ t = String c (s +:+ t).
Proof. reflexivity. Qed.

Lemma append_Empty (t : string) : "" +:+ t = t.
Proof. reflexivity. Qed.

Lemma is_slash_true (c : ascii) : is_slash c = true -> c = "/"%char.
Proof. unfold is_slash. intros H. by apply Ascii.eqb_eq in H. Qed.

Lemma no_slash_cut (n : string) : no_slash n = true -> cut_last_slash n = None.
Proof.
  induction n as [|c n IH]; simpl; [done|].
  intros [Hc Hn]%andb_true_iff. rewrite (IH Hn).
  by apply negb_true_iff in Hc as ->.
Qed.

Lemma cut_last_slash_join (d n : string) :
  no_slash n = true -> cut_last_slash (d +:+ "/" +:+ n) = Some (d, n).
Proof.
  intros Hn. induction d as [|c d IH].
  - rewrite append_Empty, append_String, append_Empty. simpl.
    by rewrite (no_slash_cut n Hn).
  - rewrite append_String. simpl. by rewrite IH.
Qed.

Lemma cut_last_slash_inv (p d n : string) :
  cut_last_slash p = Some (d, n) -> p = d +:+ "/" +:+ n.
Proof.
  revert d n. induction p as [|c p IH]; simpl; intros d n H; [done|].
  destruct (cut_last_slash p) as [[d' n']|] eqn:Hp.
  - inversion H; subst. rewrite append_String. f_equal. by apply IH.
  - destruct (is_slash c) eqn:Hc; [|done].
    inversion H; subst. apply is_slash_true in Hc as ->. reflexivity.
Qed.

Lemma valid_name_no_slash (n : string) : valid_name n = true -> no_slash n = true.
Proof. unfold valid_name. by intros [_ ?]%andb_true_iff. Qed.


Lemma split_path_join (d n : string) :
  valid_name n = true -> split_path (d +:+ "/" +:+ n) = Some (d, n).
Proof. intros H. apply cut_last_slash_join. by apply valid_name_no_slash. Qed.




Lemma Split_nonempty (s : string) (sep : ascii) : strings.Split s sep <> [].
Proof.
  destruct s as [|c s]; simpl; [done|].
  destruct (strings.Split s sep); [done|]. by destruct (Ascii.eqb c sep).
Qed.

(* ===================================================================== *)
(** * Facts about the file system calls *)
(* ===================================================================== *)

Lemma lookup_path_dest (fs : gmap string dir) (target n : string) (dr : dir) :
  valid_name n = true -> fs !! target = Some dr ->
  lookup_path fs (dest_path target n) = entries dr !! n.
Proof.
  intros Hv Hd. unfold lookup_path, dest_path. by rewrite split_path_join, Hd.
Qed.

(** The test [info.Mode()&os.ModeSymlink == os.ModeSymlink] holds for links
    and for nothing else. *)
Lemma mode_is_symlink (nd : node) :
  (Z.land (os.mode_of nd) os.ModeSymlink =? os.ModeSymlink) =
  match nd with Symlink _ => true | _ => false end.
Proof. by destruct nd. Qed.

Lemma Lstat_dest (fs : gmap string dir) (target n : string) (dr : dir) (nd : node) :
  valid_name n = true -> fs !! target = Some dr -> entries dr !! n = Some nd ->
  os.Lstat fs (dest_path target n) = Ok (mkFileInfo n (os.mode_of nd)).
Proof.
  intros Hv Hd Hn. unfold os.Lstat.
  rewrite (lookup_path_dest fs target n dr Hv Hd), Hn.
  unfold dest_path. by rewrite split_path_join.
Qed.

Lemma Remove_dest (fs : gmap string dir) (target n : string) (dr : dir) :
  valid_name n = true -> fs !! target = Some dr ->
  os.Remove fs (dest_path target n) =
    match entries dr !! n with
    | None => Failed (PathError "remove" (dest_path target n) ENOENT)
    | Some nd =>
        if negb (writable dr) then Failed (PathError "remove" (dest_path target n) EACCES)
        else match nd with
             | Subdir =>
                 if os.dir_is_empty fs (dest_path target n)
                 then Ok (delete (dest_path target n) (without target n dr fs))
                 else Failed (PathError "remove" (dest_path target n) ENOTEMPTY)
             | _ => Ok (without target n dr fs)
             end
    end.
Proof.
  intros Hv Hd. unfold os.Remove.
  replace (split_path (dest_path target n)) with (Some (target, n))
    by (symmetry; by apply split_path_join).
  by rewrite Hd, Hv.
Qed.

Lemma Symlink_dest (fs : gmap string dir) (old target n : string) (dr : dir) :
  valid_name n = true -> fs !! target = Some dr ->
  os.Symlink fs old (dest_path target n) =
    match entries dr !! n with
    | Some _ => Failed (LinkError "symlink" old (dest_path target n) EEXIST)
    | None =>
        if writable dr
        then Ok (<[target := set_entries dr (<[n := Symlink old]> (entries dr))]> fs)
        else Failed (LinkError "symlink" old (dest_path target n) EACCES)
    end.
Proof.
  intros Hv Hd. unfold os.Symlink.
  replace (split_path (dest_path target n)) with (Some (target, n))
    by (symmetry; by apply split_path_join).
  by rewrite Hd, Hv.
Qed.

(* ===================================================================== *)
(** * Resolution of links and the removal of a dangling link *)
(* ===================================================================== *)

Lemma walk_more_fuel (fs : gmap string dir) (k k' : nat) (p : string) :
  (k <= k')%nat -> is_ok (filepath.walkSymlinks k fs p) = true ->
  is_ok (filepath.walkSymlinks k' fs p) = true.
Proof.
  revert k' p. induction k as [|k IH]; intros k' p Hle; simpl.
  - destruct (lookup_path fs p) as [[| |t]|] eqn:E; try done;
      destruct k'; simpl; by rewrite E.
  - destruct k' as [|k']; [lia|]. simpl.
    destruct (lookup_path fs p) as [[| |t]|]; try done.
    apply IH. lia.
Qed.

Lemma lookup_path_without (fs : gmap string dir) (target n : string) (dr : dir)
    (p : string) :
  fs !! target = Some dr ->
  lookup_path (without target n dr fs) p =
    if bool_decide (split_path p = Some (target, n)) then None
    else lookup_path fs p.
Proof.
  intros Hd. unfold lookup_path, without.
  destruct (split_path p) as [[d m]|] eqn:Hp; [|by case_bool_decide].
  destruct (decide (d = target)) as [->|Hne].
  - rewrite lookup_insert_eq, Hd. simpl.
    case_bool_decide as Hc.
    + inversion Hc; subst. by rewrite lookup_delete_eq.
    + rewrite lookup_delete_ne; [done|]. intros ->. by apply Hc.
  - rewrite lookup_insert_ne by done.
    case_bool_decide as Hc; [|done]. inversion Hc. by subst.
Qed.

(** Taking a dangling link out of the file system changes the outcome of no
    resolution: a path that resolves never goes through it, and a path that
    met it fails at it now. *)
Lemma walk_without_dangling (fs : gmap string dir) (target n : string) (dr : dir) :
  valid_name n = true -> fs !! target = Some dr ->
  dangling fs target n = true ->
  forall (k : nat) (p : string), (k <= filepath.maxLinks)%nat ->
    is_ok (filepath.walkSymlinks k (without target n dr fs) p) =
    is_ok (filepath.walkSymlinks k fs p).
Proof.
  intros Hv Hd Hdang.
  assert (forall k, (k <= filepath.maxLinks)%nat ->
            is_ok (filepath.walkSymlinks k fs (dest_path target n)) = false) as Hfail.
  { intros k Hk. unfold dangling, resolves, filepath.EvalSymlinks in Hdang.
    destruct (is_ok (filepath.walkSymlinks k fs (dest_path target n))) eqn:E; [|done].
    apply (walk_more_fuel fs k filepath.maxLinks _ Hk) in E.
    rewrite E in Hdang. by destruct (lookup_path fs (dest_path target n)) as [[]|]. }
  induction k as [|k IH]; intros p Hk.
  - simpl. rewrite (lookup_path_without fs target n dr p Hd).
    case_bool_decide as Hc.
    + apply cut_last_slash_inv in Hc. subst p. symmetry.
      apply (Hfail 0%nat). lia.
    + done.
  - simpl. rewrite (lookup_path_without fs target n dr p Hd).
    case_bool_decide as Hc.
    + apply cut_last_slash_inv in Hc. subst p. symmetry.
      apply (Hfail (S k)). lia.
    + destruct (lookup_path fs p) as [[| |t]|]; try done.
      apply IH. lia.
Qed.

Lemma resolves_without_dangling (fs : gmap string dir) (target n : string)
    (dr : dir) (p : string) :
  valid_name n = true -> fs !! target = Some dr ->
  dangling fs target n = true ->
  resolves (without target n dr fs) p = resolves fs p.
Proof.
  intros Hv Hd Hdang. unfold resolves, filepath.EvalSymlinks.
  by apply walk_without_dangling.
Qed.

Lemma dangling_without_other (fs : gmap string dir) (target n m : string) (dr : dir) :
  valid_name n = true -> valid_name m = true -> m <> n ->
  fs !! target = Some dr -> dangling fs target n = true ->
  dangling (without target n dr fs) target m = dangling fs target m.
Proof.
  intros Hn Hm Hne Hd Hdang. unfold dangling.
  rewrite (resolves_without_dangling fs target n dr _ Hn Hd Hdang).
  rewrite (lookup_path_without fs target n dr _ Hd).
  case_bool_decide as Hc; [|done].
  unfold dest_path in Hc. rewrite (split_path_join target m Hm) in Hc.
  inversion Hc. by subst.
Qed.

(* ===================================================================== *)
(** * What the second loop of cleanDirs computes *)
(* ===================================================================== *)

Lemma lookup_remove_names (l : list string) (es : gmap string node) (m : string) :
  remove_names l es !! m = if bool_decide (m ∈ l) then None else es !! m.
Proof.
  revert es. induction l as [|n l IH]; intros es.
  - case_bool_decide as H; [|done]. by apply elem_of_nil in H.
  - change (remove_names (n :: l) es) with (remove_names l (delete n es)).
    rewrite IH.
    destruct (decide (m = n)) as [->|Hne].
    + rewrite lookup_delete_eq.
      rewrite (bool_decide_eq_true_2 (n ∈ n :: l)) by apply list_elem_of_here.
      by case_bool_decide.
    + rewrite lookup_delete_ne by done.
      case_bool_decide as H1; case_bool_decide as H2; try done.
      * exfalso. apply H2. by apply list_elem_of_further.
      * exfalso. apply elem_of_cons in H2 as [?|?]; done.
Qed.

Lemma set_entries_id (dr : dir) : set_entries dr (entries dr) = dr.
Proof. by destruct dr. Qed.

Lemma dangling_is_link (fs : gmap string dir) (target n : string) (dr : dir) :
  valid_name n = true -> fs !! target = Some dr -> dangling fs target n = true ->
  exists t, entries dr !! n = Some (Symlink t) /\ resolves fs (dest_path target n) = false.
Proof.
  intros Hv Hd. unfold dangling. rewrite (lookup_path_dest fs target n dr Hv Hd).
  destruct (entries dr !! n) as [[| |t]|]; try done.
  intros H%negb_true_iff. eauto.
Qed.

(** One iteration of the loop on a listed entry. *)
Lemma prune_cons (target : string) (f : FileInfo) (rest : list FileInfo)
    (w : World) (dr : dir) :
  fs w !! target = Some dr ->
  valid_name (fi_Name f) = true -> is_Some (entries dr !! fi_Name f) ->
  prune target (f :: rest) w =
    if dangling (fs w) target (fi_Name f) then
      let w1 := log.Println (unresolved_line target (fi_Name f)) w in
      if writable dr
      then prune target rest (set_fs w1 (without target (fi_Name f) dr (fs w)))
      else (w1, Some (PathError "remove" (dest_path target (fi_Name f)) EACCES))
    else prune target rest w.
Proof.
  intros Hd Hv [nd Hn]. simpl.
  fold (dest_path target (fi_Name f)).
  rewrite (Lstat_dest (fs w) target (fi_Name f) dr nd Hv Hd Hn). simpl.
  rewrite mode_is_symlink. unfold dangling.
  rewrite (lookup_path_dest (fs w) target (fi_Name f) dr Hv Hd), Hn.
  destruct nd as [| |t]; try done.
  unfold resolves.
  destruct (filepath.EvalSymlinks (fs w) (dest_path target (fi_Name f))); simpl; [done|].
  rewrite (Remove_dest (fs w) target (fi_Name f) dr Hv Hd), Hn.
  by destruct (writable dr).
Qed.

Lemma doomed_without (fs : gmap string dir) (target n : string) (dr : dir)
    (names : list string) :
  valid_name n = true -> fs !! target = Some dr -> dangling fs target n = true ->
  Forall (fun m => valid_name m = true) names -> n ∉ names ->
  doomed (without target n dr fs) target names = doomed fs target names.
Proof.
  intros Hv Hd Hdang Hall Hnot. unfold doomed.
  induction names as [|m names IH]; cbn [List.filter]; [reflexivity|].
  inversion Hall as [|? ? Hm Hall']; subst.
  rewrite (dangling_without_other fs target n m dr Hv Hm); [| |done|done].
  - rewrite IH; [done|done|]. intros ?. apply Hnot. by apply list_elem_of_further.
  - intros ->. apply Hnot. apply list_elem_of_here.
Qed.

(** The loop on a writable destination: exactly the dangling links, as they
    were when the loop began, are removed, one log line each, and the loop
    ends without an error. *)
Lemma prune_writable (target : string) (files : list FileInfo) :
  forall (w : World) (dr : dir),
  fs w !! target = Some dr -> writable dr = true ->
  listed dr files -> NoDup (fi_Name <$> files) ->
  prune target files w =
    (mkWorld
       (<[target := set_entries dr
            (remove_names (doomed (fs w) target (fi_Name <$> files)) (entries dr))]> (fs w))
       (logs w ++ (unresolved_line target <$> doomed (fs w) target (fi_Name <$> files))),
     None).
Proof.
  induction files as [|f rest IH]; intros w dr Hd Hw Hl Hnd.
  - simpl. unfold remove_names. simpl. rewrite set_entries_id, app_nil_r.
    rewrite insert_id by done. by destruct w.
  - inversion Hl as [|? ? [Hv Hin] Hl']; subst.
    simpl in Hnd. apply NoDup_cons in Hnd as [Hnot Hnd].
    rewrite (prune_cons target f rest w dr Hd Hv Hin), Hw.
    unfold doomed. simpl. fold (doomed (fs w) target (fi_Name <$> rest)).
    destruct (dangling (fs w) target (fi_Name f)) eqn:Hdang.
    + cbv zeta.
      rewrite (IH _ (set_entries dr (delete (fi_Name f) (entries dr)))); simpl.
      * rewrite (doomed_without (fs w) target (fi_Name f) dr); try done.
        -- unfold without. rewrite insert_insert_eq. unfold set_entries. simpl.
           by rewrite <- app_assoc.
        -- apply Forall_fmap. eapply Forall_impl; [exact Hl'|]. by intros ? [? _].
      * unfold without. by rewrite lookup_insert_eq.
      * done.
      * unfold listed in *. rewrite Forall_forall in Hl'. apply Forall_forall.
        intros g Hg. destruct (Hl' g Hg) as [Hgv Hgin]. split; [done|].
        simpl. rewrite lookup_delete_ne; [done|].
        intros E. apply Hnot. rewrite E. apply list_elem_of_fmap. eauto.
      * done.
    + by apply IH.
Qed.

(** The loop on a destination it may not write to: the first dangling link
    is logged, its removal fails, and the loop ends with that error.  The
    file system is as it was. *)
Lemma prune_readonly (target : string) (files : list FileInfo) :
  forall (w : World) (dr : dir),
  fs w !! target = Some dr -> writable dr = false ->
  listed dr files ->
  prune target files w =
    match doomed (fs w) target (fi_Name <$> files) with
    | [] => (w, None)
    | n :: _ => (log.Println (unresolved_line target n) w,
                 Some (PathError "remove" (dest_path target n) EACCES))
    end.
Proof.
  induction files as [|f rest IH]; intros w dr Hd Hw Hl; [done|].
  inversion Hl as [|? ? [Hv Hin] Hl']; subst.
  rewrite (prune_cons target f rest w dr Hd Hv Hin), Hw.
  unfold doomed. simpl. fold (doomed (fs w) target (fi_Name <$> rest)).
  destruct (dangling (fs w) target (fi_Name f)); [done|]. by apply (IH w dr).
Qed.

(* ===================================================================== *)
(** * Directory listings *)
(* ===================================================================== *)

Lemma insert_sorted_perm (n : string) (l : list string) :
  ioutil.insert_sorted n l ≡ₚ n :: l.
Proof.
  induction l as [|m l IH]; simpl; [done|].
  destruct (String.leb n m); [done|].
  rewrite IH. apply Permutation_swap.
Qed.

Lemma sort_names_perm (l : list string) : ioutil.sort_names l ≡ₚ l.
Proof.
  induction l as [|n l IH]; simpl; [done|].
  fold (ioutil.sort_names l). rewrite insert_sorted_perm. by rewrite IH.
Qed.

Lemma elem_of_names_of (dr : dir) (n : string) :
  n ∈ names_of dr <-> is_Some (entries dr !! n).
Proof.
  unfold names_of. rewrite sort_names_perm, elem_of_elements. apply elem_of_dom.
Qed.

Lemma NoDup_names_of (dr : dir) : NoDup (names_of dr).
Proof. unfold names_of. rewrite sort_names_perm. apply NoDup_elements. Qed.

Lemma ReadDir_lookup (fs : gmap string dir) (d : string) :
  is_ok (ioutil.ReadDir fs d) = true <-> is_Some (fs !! d).
Proof.
  unfold ioutil.ReadDir. destruct (fs !! d); simpl; split; try done.
Qed.

Lemma names_of_listing (es : gmap string node) (l : list string) :
  Forall (fun n => is_Some (es !! n)) l ->
  fi_Name <$> omap (fun n => match es !! n with
                             | Some nd => Some (mkFileInfo n (os.mode_of nd))
                             | None => None
                             end) l = l.
Proof.
  induction l as [|n l IH]; intros Hall; [done|].
  inversion Hall as [|? ? [nd Hn] Hall']; subst.
  cbn [omap list_omap]. rewrite Hn. cbn [fmap list_fmap fi_Name].
  f_equal. by apply IH.
Qed.

Lemma ReadDir_names (fs : gmap string dir) (d : string) (dr : dir) :
  fs !! d = Some dr ->
  exists files, ioutil.ReadDir fs d = Ok files /\ fi_Name <$> files = names_of dr.
Proof.
  intros Hd. unfold ioutil.ReadDir. rewrite Hd. eexists; split; [done|].
  fold (names_of dr). apply names_of_listing.
  apply Forall_forall. intros n. by rewrite elem_of_names_of.
Qed.

Lemma listed_of_names (dr : dir) (files : list FileInfo) :
  valid_names dr -> fi_Name <$> files = names_of dr -> listed dr files.
Proof.
  intros Hv Hn. apply Forall_forall. intros f Hf.
  assert (is_Some (entries dr !! fi_Name f)) as Hs.
  { apply elem_of_names_of. rewrite <- Hn. by apply list_elem_of_fmap_2. }
  split; [|done]. destruct Hs as [nd Hnd]. by apply (Hv _ _ Hnd).
Qed.

Lemma list_sources_Ok (fs : gmap string dir) (sources : list Directory) :
  sources_listable fs sources ->
  forall m, exists m', list_sources fs sources m = Ok m'.
Proof.
  induction 1 as [|s sources Hs _ IH]; intros m; simpl; [eauto|].
  destruct (ioutil.ReadDir fs (Path s)); [apply IH|done].
Qed.

Lemma list_sources_Failed (fs : gmap string dir) (sources : list Directory) :
  forall m err, list_sources fs sources m = Failed err ->
  ~ sources_listable fs sources.
Proof.
  induction sources as [|s sources IH]; intros m err; simpl; [done|].
  intros H Hall. inversion Hall as [|? ? Hs Hall']; subst.
  destruct (ioutil.ReadDir fs (Path s)); [|done]. by eapply IH.
Qed.

(* ===================================================================== *)
(** * What cleanDirs computes *)
(* ===================================================================== *)

Lemma elem_of_dangling_links (fs : gmap string dir) (target : string) (dr : dir)
    (n : string) :
  n ∈ dangling_links fs target dr <->
  is_Some (entries dr !! n) /\ dangling fs target n = true.
Proof.
  unfold dangling_links, doomed.
  rewrite list_elem_of_In, filter_In, <- list_elem_of_In, elem_of_names_of. done.
Qed.

Lemma NoDup_dangling_links (fs : gmap string dir) (target : string) (dr : dir) :
  NoDup (dangling_links fs target dr).
Proof.
  unfold dangling_links, doomed.
  apply NoDup_ListNoDup, List.NoDup_filter, NoDup_ListNoDup, NoDup_names_of.
Qed.

(** [cleanDirs] when every listing succeeds. *)
Lemma cleanDirs_listed (sources : list Directory) (target : string) (w : World)
    (dr : dir) :
  sources_listable (fs w) sources -> fs w !! target = Some dr -> valid_names dr ->
  cleanDirs sources target w =
    if writable dr then
      (mkWorld
         (<[target := set_entries dr
              (remove_names (dangling_links (fs w) target dr) (entries dr))]> (fs w))
         (logs w ++ (unresolved_line target <$> dangling_links (fs w) target dr)),
       None)
    else
      match dangling_links (fs w) target dr with
      | [] => (w, None)
      | n :: _ => (log.Println (unresolved_line target n) w,
                   Some (PathError "remove" (dest_path target n) EACCES))
      end.
Proof.
  intros Hs Hd Hv. unfold cleanDirs.
  destruct (list_sources_Ok (fs w) sources Hs ∅) as [m' ->].
  destruct (ReadDir_names (fs w) target dr Hd) as (files & -> & Hn).
  pose proof (listed_of_names dr files Hv Hn) as Hl.
  unfold dangling_links. rewrite <- Hn.
  destruct (writable dr) eqn:Hw.
  - apply prune_writable; try done. rewrite Hn. apply NoDup_names_of.
  - by apply (prune_readonly target files w dr).
Qed.

(** [cleanDirs] when a listing fails: nothing is touched. *)
Lemma cleanDirs_unlisted (sources : list Directory) (target : string) (w : World) :
  ~ (sources_listable (fs w) sources /\ is_ok (ioutil.ReadDir (fs w) target) = true) ->
  exists err, cleanDirs sources target w = (w, Some err).
Proof.
  intros Hno. unfold cleanDirs.
  destruct (list_sources (fs w) sources ∅) as [m|err] eqn:Hs; [|eauto].
  destruct (ioutil.ReadDir (fs w) target) as [files|err] eqn:Ht; [|eauto].
  exfalso. apply Hno. split; [|done].
  apply Forall_forall. intros s Hin.
  clear Hno Ht. revert Hs. generalize (∅ : gmap string string).
  induction sources as [|s' sources IH]; intros m0 Hs; [by apply elem_of_nil in Hin|].
  simpl in Hs. destruct (ioutil.ReadDir (fs w) (Path s')) eqn:E; [|done].
  apply elem_of_cons in Hin as [->|Hin]; [by rewrite E|]. by eapply IH.
Qed.

(** Taking any number of dangling links out of the destination changes the
    outcome of no resolution. *)
Lemma resolves_remove_dangling (target : string) (l : list string) :
  forall (fs : gmap string dir) (dr : dir),
  fs !! target = Some dr -> NoDup l ->
  Forall (fun n => valid_name n = true /\ dangling fs target n = true) l ->
  forall p, resolves (<[target := set_entries dr (remove_names l (entries dr))]> fs) p
            = resolves fs p.
Proof.
  induction l as [|n l IH]; intros fs dr Hd Hnd Hall p.
  - unfold remove_names. simpl. by rewrite set_entries_id, insert_id.
  - inversion Hall as [|? ? [Hv Hdang] Hall']; subst.
    apply NoDup_cons in Hnd as [Hnot Hnd].
    change (remove_names (n :: l) (entries dr))
      with (remove_names l (entries (set_entries dr (delete n (entries dr))))).
    assert (resolves (<[target := set_entries (set_entries dr (delete n (entries dr)))
                         (remove_names l (entries (set_entries dr (delete n (entries dr)))))]>
                        (without target n dr fs)) p
            = resolves (without target n dr fs) p) as E.
    { apply IH; [by unfold without; rewrite lookup_insert_eq|done|].
      rewrite Forall_forall in Hall'. apply Forall_forall. intros m Hm.
      destruct (Hall' m Hm) as [Hmv Hmd]. split; [done|].
      rewrite (dangling_without_other fs target n m dr); try done.
      intros ->. done. }
    unfold without in E at 1. rewrite insert_insert_eq in E.
    unfold set_entries in *. simpl in *. rewrite E.
    by apply resolves_without_dangling.
Qed.

(* ===================================================================== *)
(** * The reconciliation pass (claims C3, C9, C6) *)
(* ===================================================================== *)





Lemma main_start_unfold (source distanation : string) (w : World) :
  distanation <> "" ->
  main_start source distanation w =
    let r := cleanDirs (managed source) distanation
               (log.Println "Starting pre-cleaner process" w) in
    match r.2 with
    | Some e => (log.Println ("First clean dirs was corrapted: " +:+ Error e) r.1,
                 ProcessExit 1)
    | None => (r.1, Continue (managed source, Z.of_nat (length (managed source))))
    end.
Proof.
  intros Hne. unfold main_start.
  assert ((Z.of_nat (length (strings.Split source ",")) =? 0) = false) as ->.
  { apply Z.eqb_neq. pose proof (Split_nonempty source ","%char).
    destruct (strings.Split source ","); [done|]. simpl. lia. }
  assert ((Z.of_nat (String.length distanation) =? 0) = false) as ->.
  { apply Z.eqb_neq. destruct distanation; [done|]. simpl. lia. }
  cbn [orb]. fold (managed source).
  unfold mbind, Proc_bind, log_Println, call. cbv zeta.
  destruct (cleanDirs (managed source) distanation
              (log.Println "Starting pre-cleaner process" w)) as [w1 [e|]]; reflexivity.
Qed.

(** C6.  The reconciliation pass returns an error exactly when the listing
    of a source directory or of the destination fails, or an [Lstat] or
    [Remove] on a destination entry fails; and such an error is fatal:
    [main] logs it and ends the process with status 1, so that the daemon
    never comes up and no event is processed. *)
Theorem C6_reconciliation_error_is_fatal (source distanation : string) (w : World) :
  distanation <> "" ->
  (forall dr, fs w !! distanation = Some dr -> valid_names dr) ->
  let w0 := log.Println "Starting pre-cleaner process" w in
  let r := cleanDirs (managed source) distanation w0 in
  (r.2 <> None <->
     ~ sources_listable (fs w) (managed source) \/
     is_ok (ioutil.ReadDir (fs w) distanation) = false \/
     exists dr n, fs w !! distanation = Some dr /\ is_Some (entries dr !! n) /\
       (is_ok (os.Lstat (fs w) (dest_path distanation n)) = false \/
        dangling (fs w) distanation n = true /\
        is_ok (os.Remove (fs w) (dest_path distanation n)) = false)) /\
  (forall e, r.2 = Some e ->
     main_start source distanation w =
       (log.Println ("First clean dirs was corrapted: " +:+ Error e) r.1, ProcessExit 1) /\
     (boot source distanation w).2 = None) /\
  (r.2 = None ->
     main_start source distanation w =
       (r.1, Continue (managed source, Z.of_nat (length (managed source))))).
Proof.
  intros Hne Hv w0 r.
  split; [|split].
  - subst r.
    destruct (decide (Forall (fun s => is_ok (ioutil.ReadDir (fs w) (Path s)) = true)
                        (managed source))) as [Hs|Hs].
    2:{ destruct (cleanDirs_unlisted (managed source) distanation w0) as [err ->].
        - intros [? _]. by apply Hs.
        - split; [by left|done]. }
    destruct (fs w !! distanation) as [dr|] eqn:Hd.
    2:{ destruct (cleanDirs_unlisted (managed source) distanation w0) as [err ->].
        - intros [_ H]. simpl in H. apply ReadDir_lookup in H as [? H].
          by rewrite Hd in H.
        - split; [|done]. intros _. right; left. simpl.
          destruct (is_ok (ioutil.ReadDir (fs w) distanation)) eqn:E; [|done].
          apply ReadDir_lookup in E as [? E]. by rewrite Hd in E. }
    specialize (Hv dr eq_refl).
    rewrite (cleanDirs_listed (managed source) distanation w0 dr Hs Hd Hv).
    split.
    + intros Herr. right; right.
      destruct (writable dr) eqn:Hw; [done|].
      destruct (dangling_links (fs w0) distanation dr) as [|n l] eqn:Hdl; [done|].
      assert (n ∈ dangling_links (fs w0) distanation dr) as Hin
        by (rewrite Hdl; apply list_elem_of_here).
      apply elem_of_dangling_links in Hin as [[nd Hn] Hdang].
      exists dr, n. split; [done|]. split; [eauto|]. right. split; [done|].
      rewrite (Remove_dest (fs w) distanation n dr); [|by apply (Hv _ _ Hn)|done].
      by rewrite Hn, Hw.
    + intros [Hno|[Hno|(dr0 & n & Hd0 & [nd Hn] & Hcase)]].
      * done.
      * exfalso. assert (is_ok (ioutil.ReadDir (fs w) distanation) = true) as E
          by (apply ReadDir_lookup; eauto). congruence.
      * inversion Hd0; subst dr0.
        assert (valid_name n = true) as Hvn by (by apply (Hv _ _ Hn)).
        destruct Hcase as [Hl|[Hdang Hrm]].
        { by rewrite (Lstat_dest (fs w) distanation n dr nd Hvn Hd Hn) in Hl. }
        rewrite (Remove_dest (fs w) distanation n dr Hvn Hd), Hn in Hrm.
        destruct (dangling_is_link (fs w) distanation n dr Hvn Hd Hdang)
          as (t & Ht & _).
        rewrite Hn in Ht. inversion Ht; subst nd.
        destruct (writable dr); [done|]. simpl.
        destruct (dangling_links (fs w) distanation dr) as [|n0 l] eqn:Hdl; [|by simpl].
        exfalso. eapply not_elem_of_nil. rewrite <- Hdl.
        apply elem_of_dangling_links. eauto.
  - intros e He. unfold boot.
    rewrite (main_start_unfold source distanation w Hne). cbv zeta.
    fold w0. fold r. by rewrite He.
  - intros He. rewrite (main_start_unfold source distanation w Hne). cbv zeta.
    fold w0. fold r. by rewrite He.
Qed.

Lemma C6_witness :
  let w0 := log.Println "Starting pre-cleaner process" ex_world in
  let r := cleanDirs (managed "/A,/nowhere") "/D" w0 in
  (r.2 <> None <->
     ~ sources_listable (fs ex_world) (managed "/A,/nowhere") \/
     is_ok (ioutil.ReadDir (fs ex_world) "/D") = false \/
     exists dr n, fs ex_world !! "/D" = Some dr /\ is_Some (entries dr !! n) /\
       (is_ok (os.Lstat (fs ex_world) (dest_path "/D" n)) = false \/
        dangling (fs ex_world) "/D" n = true /\
        is_ok (os.Remove (fs ex_world) (dest_path "/D" n)) = false)) /\
  (forall e, r.2 = Some e ->
     main_start "/A,/nowhere" "/D" ex_world =
       (log.Println ("First clean dirs was corrapted: " +:+ Error e) r.1, ProcessExit 1) /\
     (boot "/A,/nowhere" "/D" ex_world).2 = None) /\
  (r.2 = None ->
     main_start "/A,/nowhere" "/D" ex_world =
       (r.1, Continue (managed "/A,/nowhere", Z.of_nat (length (managed "/A,/nowhere"))))).
Proof.
  apply (C6_reconciliation_error_is_fatal "/A,/nowhere" "/D" ex_world).
  - discriminate.
  - intros dr Hd.
    assert (Some dr = Some ex_D) as E by (rewrite <- Hd; reflexivity).
    inversion E; subst. apply map_Forall_singleton. reflexivity.
Defined.

(** On it the listings succeed, the removal fails, and start-up is aborted
    with the link still in place. *)
Example cleanDirs_remove_fails :
  main_start "/A" "/D" (mkWorld ex_fs_readonly []) =
    (mkWorld ex_fs_readonly
       ["Starting pre-cleaner process";
        "Unresolved link: /D/stale. Deleted";
        "First clean dirs was corrapted: remove /D/stale: permission denied"],
     ProcessExit 1).
Proof. vm_compute. reflexivity. Qed.

(* ===================================================================== *)
(** * The link synchronizer (claims C1, C2, C5, C7, C10) *)
(* ===================================================================== *)

(** C1.  A creation notification for the file [f] makes [UpdateDirs] create
    one symbolic link in the destination, named [basename(f)], whose target
    is [f]; when an entry of that name exists already the create fails with
    EEXIST, the failure is logged and returned, and the destination is
    unchanged.  The same event issued a second time is such a logged
    failure that changes nothing. *)
Theorem C1_create_links_or_conflicts
    (d : Directory) (dist : string) (updated : UpdateHeader) (w : World) (dr : dir) :
  IsCreate (Event updated) = true -> IsDelete (Event updated) = false ->
  fs w !! dist = Some dr ->
  valid_name (path.Base (Name (Event updated))) = true ->
  let f := Name (Event updated) in
  let b := path.Base f in
  let conflict := LinkError "symlink" f (dest_path dist b) EEXIST in
  let r := UpdateDirs d dist updated w in
  let r2 := UpdateDirs d dist updated r.1 in
  match entries dr !! b with
  | None =>
      writable dr = true ->
      r = (mkWorld (<[dist := set_entries dr (<[b := Symlink f]> (entries dr))]> (fs w))
                   (logs w ++ ["Updated link: " +:+ f]), None) /\
      r2 = (log.Println (Error conflict) r.1, Some conflict)
  | Some _ =>
      r = (log.Println (Error conflict) w, Some conflict) /\
      r2 = (log.Println (Error conflict) r.1, Some conflict)
  end.
Proof.
  intros Hc Hdel Hd Hv f b conflict r r2.
  assert (forall w0 dr0, fs w0 !! dist = Some dr0 -> is_Some (entries dr0 !! b) ->
            UpdateDirs d dist updated w0 = (log.Println (Error conflict) w0, Some conflict))
    as Hconflict.
  { intros w0 dr0 Hd0 [nd Hn]. unfold UpdateDirs, UpdateDirs_create. rewrite Hc.
    fold f b (dest_path dist b).
    by rewrite (Symlink_dest (fs w0) f dist b dr0 Hv Hd0), Hn. }
  destruct (entries dr !! b) as [nd|] eqn:Hn.
  - assert (r = (log.Println (Error conflict) w, Some conflict)) as Hr
      by (apply (Hconflict w dr Hd); eauto).
    split; [done|]. subst r2. rewrite Hr. simpl.
    apply (Hconflict _ dr); simpl; eauto.
  - intros Hw.
    assert (r = (mkWorld (<[dist := set_entries dr (<[b := Symlink f]> (entries dr))]> (fs w))
                   (logs w ++ ["Updated link: " +:+ f]), None)) as Hr.
    { subst r. unfold UpdateDirs, UpdateDirs_create, UpdateDirs_delete.
      rewrite Hc, Hdel. fold f b (dest_path dist b).
      by rewrite (Symlink_dest (fs w) f dist b dr Hv Hd), Hn, Hw. }
    split; [done|]. subst r2. rewrite Hr. simpl.
    eapply Hconflict; simpl.
    + apply lookup_insert_eq.
    + simpl. rewrite lookup_insert_eq. eauto.
Qed.

Lemma C1_witness :
  let upd := creation "/A/x.txt" "/A" in
  let conflict := LinkError "symlink" "/A/x.txt" "/D/x.txt" EEXIST in
  let r := UpdateDirs (mkDir "/A") "/D" upd ex_world in
  let r2 := UpdateDirs (mkDir "/A") "/D" upd r.1 in
  r = (mkWorld (<["/D" := set_entries ex_D
                   (<["x.txt" := Symlink "/A/x.txt"]> (entries ex_D))]> ex_fs)
               ["Updated link: /A/x.txt"], None) /\
  r2 = (log.Println (Error conflict) r.1, Some conflict).
Proof.
  pose proof (C1_create_links_or_conflicts (mkDir "/A") "/D"
                (creation "/A/x.txt" "/A") ex_world ex_D
                eq_refl eq_refl eq_refl eq_refl) as H.
  cbv zeta in H.
  change (path.Base (Name (Event (creation "/A/x.txt" "/A")))) with "x.txt" in H.
  change (entries ex_D !! "x.txt") with (@None node) in H.
  apply H. reflexivity.
Defined.

(** A deletion event on an entry that is not a directory. *)
Lemma UpdateDirs_unlinks
    (d : Directory) (dist : string) (updated : UpdateHeader) (w : World) (dr : dir)
    (nd : node) :
  IsCreate (Event updated) = false -> IsDelete (Event updated) = true ->
  fs w !! dist = Some dr -> writable dr = true ->
  valid_name (path.Base (Name (Event updated))) = true ->
  entries dr !! path.Base (Name (Event updated)) = Some nd -> nd <> Subdir ->
  UpdateDirs d dist updated w =
    (mkWorld (<[dist := set_entries dr
                 (delete (path.Base (Name (Event updated))) (entries dr))]> (fs w))
             (logs w ++ ["Delete link: " +:+
                         dest_path dist (path.Base (Name (Event updated)))]), None).
Proof.
  intros Hc Hdel Hd Hw Hv Hn Hnd.
  unfold UpdateDirs, UpdateDirs_create, UpdateDirs_delete.
  rewrite Hc, Hdel. fold (dest_path dist (path.Base (Name (Event updated)))).
  rewrite (Remove_dest (fs w) dist _ dr Hv Hd), Hn, Hw. simpl.
  by destruct nd.
Qed.



(** C10.  The removal of a deletion notification goes by name alone: the
    entry named [basename(f)] is removed when it is a regular file and when
    it is a symbolic link with any target at all, also one that another
    source directory owns; [UpdateDirs] never looks at what the entry is. *)
Theorem C10_delete_is_by_name_only
    (d : Directory) (dist : string) (updated : UpdateHeader) (w : World) (dr : dir)
    (nd : node) :
  IsCreate (Event updated) = false -> IsDelete (Event updated) = true ->
  fs w !! dist = Some dr -> writable dr = true ->
  valid_name (path.Base (Name (Event updated))) = true ->
  entries dr !! path.Base (Name (Event updated)) = Some nd ->
  (nd = RegularFile \/ exists t, nd = Symlink t) ->
  let b := path.Base (Name (Event updated)) in
  UpdateDirs d dist updated w =
    (mkWorld (<[dist := set_entries dr (delete b (entries dr))]> (fs w))
             (logs w ++ ["Delete link: " +:+ dest_path dist b]), None).
Proof.
  intros Hc Hdel Hd Hw Hv Hn Hkind b.
  apply (UpdateDirs_unlinks d dist updated w dr nd Hc Hdel Hd Hw Hv Hn).
  destruct Hkind as [->|[t ->]]; done.
Qed.

Lemma C10_witness :
  UpdateDirs (mkDir "/A") "/D" (deletion "/A/x.txt" "/A") (mkWorld ex_fs_foreign []) =
    (mkWorld (<["/D" := set_entries (Dir {["x.txt" := Symlink "/B/x.txt"]} true)
                 (delete "x.txt" (entries (Dir {["x.txt" := Symlink "/B/x.txt"]} true)))]>
                ex_fs_foreign)
             ([] ++ ["Delete link: " +:+ dest_path "/D" "x.txt"]), None).
Proof.
  apply (C10_delete_is_by_name_only (mkDir "/A") "/D" (deletion "/A/x.txt" "/A")
           (mkWorld ex_fs_foreign []) (Dir {["x.txt" := Symlink "/B/x.txt"]} true)
           (Symlink "/B/x.txt")); try reflexivity.
  right. by exists "/B/x.txt".
Defined.

(** A regular file of that name goes the same way. *)
Example delete_unlinks_regular_file :
  fs (UpdateDirs (mkDir "/A") "/D" (deletion "/A/x.txt" "/A")
        (mkWorld {["/D" := Dir {["x.txt" := RegularFile]} true]} [])).1
  = {["/D" := Dir ∅ true]}.
Proof. vm_compute. reflexivity. Qed.

(** C7.  A notification that is neither a creation nor a deletion (a rename,
    a modification) makes [UpdateDirs] return nil at once: no file system
    call, no log line, the destination as it was. *)
Theorem C7_other_events_change_nothing
    (d : Directory) (dist : string) (updated : UpdateHeader) (w : World) :
  IsCreate (Event updated) = false -> IsDelete (Event updated) = false ->
  UpdateDirs d dist updated w = (w, None).
Proof.
  intros Hc Hd. unfold UpdateDirs, UpdateDirs_create, UpdateDirs_delete.
  by rewrite Hc, Hd.
Qed.

Lemma C7_witness :
  UpdateDirs (mkDir "/A") "/D"
    (mkUpdateHeader (mkFileEvent "/A/x.txt" false false) (mkDir "/A")) ex_world
  = (ex_world, None).
Proof.
  apply (C7_other_events_change_nothing (mkDir "/A") "/D"
           (mkUpdateHeader (mkFileEvent "/A/x.txt" false false) (mkDir "/A")) ex_world);
    reflexivity.
Defined.





(* ===================================================================== *)
(** * The event router (claim C8) *)
(* ===================================================================== *)

Lemma count_exits_app (l1 l2 : list msg) :
  count_exits (l1 ++ l2) = count_exits l1 + count_exits l2.
Proof.
  unfold count_exits. rewrite List.filter_app, length_app. lia.
Qed.

Lemma count_exits_nonneg (l : list msg) : 0 <= count_exits l.
Proof. unfold count_exits. lia. Qed.

Lemma int_wrap_small (z : Z) : - 2 ^ 63 <= z < 2 ^ 63 -> int_wrap z = z.
Proof.
  intros H. unfold int_wrap. rewrite Z.mod_small; lia.
Qed.

(** A run of the control loop that starts with a positive count: it returns
    when the count has come down to zero, which is at the exit that makes
    the number of exits received equal to the initial count, and not before;
    until then the count is the initial count less the exits received. *)
Lemma router_run (dirs : list Directory) (dist : string) (inbox : list msg) :
  forall c, 0 < c < 2 ^ 63 ->
  let r := router dirs dist c inbox in
  if returned r then
    count r = 0 /\
    exists consumed,
      inbox = consumed ++ unread r /\ count_exits consumed = c /\
      last consumed = Some RecvExit /\
      forall pre post, consumed = pre ++ post -> post <> [] -> count_exits pre < c
  else
    count r = c - count_exits inbox /\ 0 < count r /\ unread r = [].
Proof.
  induction inbox as [|m rest IH]; intros c Hc.
  - simpl. unfold count_exits. simpl. split; [lia|]. split; [lia|done].
  - assert (forall c', 0 < c' < 2 ^ 63 -> count_exits [m] = c - c' ->
              router dirs dist c (m :: rest) =
                (let r := router dirs dist c' rest in
                 mkRouterRun ((router_select dirs dist c m).1 ++ emitted r)
                             (count r) (returned r) (unread r)) ->
              let r := router dirs dist c (m :: rest) in
              if returned r then
                count r = 0 /\
                exists consumed,
                  m :: rest = consumed ++ unread r /\ count_exits consumed = c /\
                  last consumed = Some RecvExit /\
                  forall pre post, consumed = pre ++ post -> post <> [] ->
                                   count_exits pre < c
              else count r = c - count_exits (m :: rest) /\ 0 < count r /\ unread r = [])
      as Hgo.
    { intros c' Hc' Hm E r. subst r. rewrite E. cbv zeta. cbn [returned count unread].
      specialize (IH c' Hc'). cbv zeta in IH.
      destruct (returned (router dirs dist c' rest)).
      - destruct IH as (H0 & consumed & Hin & Hcnt & Hlast & Hpre).
        split; [done|]. exists (m :: consumed).
        split; [by rewrite Hin at 1|].
        split; [change (m :: consumed) with ([m] ++ consumed);
                rewrite count_exits_app; lia|].
        split.
        + destruct consumed as [|x l]; [|done].
          exfalso. unfold count_exits in Hcnt. simpl in Hcnt. lia.
        + intros pre post Hsplit Hpost.
          destruct pre as [|x pre]; [unfold count_exits; simpl; lia|].
          inversion Hsplit; subst.
          change (x :: pre) with ([x] ++ pre). rewrite count_exits_app.
          specialize (Hpre pre post eq_refl Hpost). lia.
      - destruct IH as (Hcount & Hpos & Hun).
        split; [|done].
        change (m :: rest) with ([m] ++ rest). rewrite count_exits_app. lia. }
    destruct m as [|u|].
    + apply (Hgo c Hc); [unfold count_exits; simpl; lia|].
      simpl. assert ((c =? 0) = false) as -> by (apply Z.eqb_neq; lia). done.
    + apply (Hgo c Hc); [unfold count_exits; simpl; lia|].
      simpl. assert ((c =? 0) = false) as -> by (apply Z.eqb_neq; lia). done.
    + destruct (decide (c = 1)) as [->|Hne].
      * simpl. split; [done|]. exists [RecvExit].
        split; [done|]. split; [done|]. split; [done|].
        intros pre post Hsplit Hpost.
        destruct pre as [|x pre]; [unfold count_exits; simpl; lia|].
        inversion Hsplit as [[Hx Hrest]].
        destruct pre; [|done]. simpl in Hrest. by subst post.
      * apply (Hgo (c - 1)); [lia|unfold count_exits; simpl; lia|].
        simpl. rewrite int_wrap_small by lia.
        assert ((c - 1 =? 0) = false) as -> by (apply Z.eqb_neq; lia). done.
Qed.

Lemma length_managed (source : string) :
  (1 <= length (managed source))%nat.
Proof.
  unfold managed. rewrite length_map.
  pose proof (Split_nonempty source ","%char).
  destruct (strings.Split source ","); [done|]. simpl. lia.
Qed.

(** C8.  The control loop of [main] keeps a count of outstanding sessions
    that starts as the number of source directories; a global quit makes it
    send one quit, on the watcher-quit channel, for each session and leaves
    the count alone; each exit acknowledgment takes exactly one off the
    count; and the loop returns exactly when the count comes to zero, that
    is at the acknowledgment of the last session, never before. *)
Theorem C8_router_counts_sessions_down
    (source distanation : string) (w : World) (inbox : list msg) :
  distanation <> "" ->
  Z.of_nat (length (managed source)) < 2 ^ 63 ->
  (forall w1 dirs cnt,
     main_start source distanation w = (w1, Continue (dirs, cnt)) ->
     dirs = managed source /\ cnt = Z.of_nat (length dirs) /\ 1 <= cnt) /\
  (forall c, router_select (managed source) distanation c RecvQuit =
               (map (fun dir => Send (WatcherQuit dir)) (managed source), c) /\
             length (router_select (managed source) distanation c RecvQuit).1
               = length (managed source) /\
             Forall (fun a => a = Send chanWatcheQuit)
                    (router_select (managed source) distanation c RecvQuit).1) /\
  (forall c, 0 < c < 2 ^ 63 ->
             router_select (managed source) distanation c RecvExit = ([], c - 1)) /\
  let n := Z.of_nat (length (managed source)) in
  let r := router (managed source) distanation n inbox in
  (returned r = true <-> n <= count_exits inbox) /\
  (returned r = true ->
     count r = 0 /\
     exists consumed,
       inbox = consumed ++ unread r /\ count_exits consumed = n /\
       last consumed = Some RecvExit /\
       forall pre post, consumed = pre ++ post -> post <> [] -> count_exits pre < n) /\
  (returned r = false -> count r = n - count_exits inbox /\ 0 < count r).
Proof.
  intros Hne Hlen.
  pose proof (length_managed source) as Hpos.
  split; [|split; [|split]].
  - intros w1 dirs cnt. rewrite (main_start_unfold source distanation w Hne).
    cbv zeta.
    destruct (cleanDirs (managed source) distanation
                (log.Println "Starting pre-cleaner process" w)).2; [done|].
    intros E. inversion E; subst. split; [done|]. split; [done|]. lia.
  - intros c. split; [done|]. cbn [router_select fst].
    split; [by rewrite length_map|].
    apply Forall_forall. intros a Ha. apply list_elem_of_In, in_map_iff in Ha
      as (dir & <- & Hin).
    unfold managed in Hin. apply in_map_iff in Hin as (p & <- & _). done.
  - intros c Hc. simpl. by rewrite int_wrap_small by lia.
  - intros n r.
    pose proof (router_run (managed source) distanation inbox n) as Hrun.
    cbv zeta in Hrun. fold r in Hrun.
    destruct (returned r) eqn:Hret.
    + destruct Hrun as (H0 & consumed & Hin & Hcnt & Hlast & Hpre); [lia|].
      split; [|split; [|done]].
      * split; [|done]. intros _. rewrite Hin, count_exits_app.
        pose proof (count_exits_nonneg (unread r)). lia.
      * intros _. split; [done|]. by exists consumed.
    + destruct Hrun as (Hcount & Hp & _); [lia|].
      split; [|split; [done|]].
      * split; [done|]. intros Hle. lia.
      * intros _. done.
Qed.

Lemma C8_witness :
  let r := router (managed "/A,/B") "/D" 2 ex_inbox in
  (returned r = true <-> 2 <= count_exits ex_inbox) /\
  (returned r = true ->
     count r = 0 /\
     exists consumed,
       ex_inbox = consumed ++ unread r /\ count_exits consumed = 2 /\
       last consumed = Some RecvExit /\
       forall pre post, consumed = pre ++ post -> post <> [] -> count_exits pre < 2) /\
  (returned r = false -> count r = 2 - count_exits ex_inbox /\ 0 < count r).
Proof.
  assert ("/D" <> "") as H1 by discriminate.
  assert (Z.of_nat (length (managed "/A,/B")) < 2 ^ 63) as H2 by (vm_compute; reflexivity).
  exact (proj2 (proj2 (proj2
           (C8_router_counts_sessions_down "/A,/B" "/D" ex_world ex_inbox H1 H2)))).
Defined.

Example router_two_sessions :
  router (managed "/A,/B") "/D" 2 ex_inbox =
    mkRouterRun
      [Send chanWatcheQuit; Send chanWatcheQuit;
       GoUpdateDirs (mkDir "/A") "/D" (creation "/A/x.txt" "/A")]
      0 true [RecvQuit].
Proof. vm_compute. reflexivity. Qed.

(* ===================================================================== *)
(** * Shutdown (claim C4) *)
(* ===================================================================== *)

(** [handler] on SIGTERM ends the process on the spot; the statement
    [return daemon.ErrStop] after [os.Exit(0)] is never reached.  On any
    other signal it logs and returns nil. *)
Lemma handler_SIGTERM (w : World) :
  handler syscall.SIGTERM w = (log.Println "signal: terminated" w, ProcessExit 0).
Proof. reflexivity. Qed.

Lemma handler_SIGHUP (w : World) :
  handler syscall.SIGHUP w = (log.Println "signal: hangup" w, Continue None).
Proof. reflexivity. Qed.

Lemma no_quit_yet_init (dirs : list Directory) (dist : string) (cnt : Z) (w : World) :
  no_quit_yet (init dirs dist cnt w).
Proof.
  split; [|done]. simpl. apply Forall_forall. intros st Hin.
  apply list_elem_of_In, in_map_iff in Hin as (? & <- & _). by left.
Qed.

(** Nothing sends on [chanQuit], so no step ever takes a session out of
    [Idle] or [Watching]. *)
Lemma no_quit_yet_step (l : label) (s s' : System) :
  no_quit_yet s -> step l s = Some s' -> no_quit_yet s'.
Proof.
  intros [Hall Hfw] Hstep. unfold step in Hstep.
  destruct (exited s); [done|].
  assert (forall i st, sessions s !! i = Some st -> st = Idle \/ st = Watching) as Hst.
  { intros i st Hi. rewrite Forall_forall in Hall. apply Hall.
    by eapply list_elem_of_lookup_2. }
  destruct l as [i|i ev|k| |i|i|i|sig].
  - destruct (sessions s !! i) as [st|] eqn:Hi; [|done].
    destruct (manageDirs s !! i); [|done].
    destruct (Hst i st Hi) as [-> | ->]; [|done].
    inversion Hstep; subst. split; [|done].
    simpl. apply Forall_insert; [done|by right].
  - destruct (sessions s !! i) as [st|]; [|done].
    destruct (manageDirs s !! i); [|done].
    destruct (_ && _); [|done]. inversion Hstep; subst. by split.
  - destruct (tasks s !! k) as [[[? ?] ?]|]; [|done]. inversion Hstep; subst. by split.
  - rewrite andb_false_r in Hstep. done.
  - by rewrite Hfw in Hstep.
  - destruct (sessions s !! i) as [st|] eqn:Hi; [|done].
    destruct (Hst i st Hi) as [-> | ->]; done.
  - destruct (sessions s !! i) as [st|] eqn:Hi; [|done].
    destruct (Hst i st Hi) as [-> | ->]; done.
  - destruct (bool_decide _); [|done].
    destruct (handler sig (world s)) as [w1 ctl]. inversion Hstep; subst. by split.
Qed.

Lemma no_quit_yet_run (ls : list label) :
  forall s s', no_quit_yet s -> run ls s = Some s' -> no_quit_yet s'.
Proof.
  induction ls as [|l ls IH]; intros s s' Hs Hrun; simpl in Hrun.
  - by inversion Hrun; subst.
  - destruct (step l s) as [s1|] eqn:Hstep; [|done].
    eapply IH; [|done]. by eapply no_quit_yet_step.
Qed.

(** However the daemon has run, no session has reached [Stopped], and a
    SIGTERM ends the process with status 0 there and then. *)
Lemma sigterm_never_waits (dirs : list Directory) (dist : string) (cnt : Z) (w : World)
    (ls : list label) (s : System) :
  run ls (init dirs dist cnt w) = Some s ->
  Forall (fun st => st <> Stopped) (sessions s) /\
  (exited s = None ->
   exists s', step (Deliver syscall.SIGTERM) s = Some s' /\
              exited s' = Some 0 /\ sessions s' = sessions s).
Proof.
  intros Hrun.
  destruct (no_quit_yet_run ls _ _ (no_quit_yet_init dirs dist cnt w) Hrun) as [Hall _].
  split.
  - eapply Forall_impl; [exact Hall|]. by intros st [-> | ->].
  - intros Hex. unfold step. rewrite Hex. eexists. split; [reflexivity|]. done.
Qed.

(** C4 fails on the code.  The daemon for sources [/A] and [/B], with the
    session of [/A] watching: a SIGTERM ends the process with status 0 while
    that session is still [Watching] and the other still [Idle]; no quit was
    sent to either and the count of outstanding sessions is still 2. *)
Theorem C4_sigterm_exits_without_waiting :
  exists s s',
    (boot "/A,/B" "/D" ex_world).2 = Some s /\
    run [StartWatch 0; Deliver syscall.SIGTERM] s = Some s' /\
    exited s' = Some 0 /\
    sessions s' = [Watching; Idle] /\
    exitCnt s' = 2 /\ routerDone s' = false.
Proof.
  eexists. eexists. split; [vm_compute; reflexivity|].
  split; [vm_compute; reflexivity|]. done.
Qed.

(** The quit path of the router does what a graceful shutdown needs, once it
    is entered: had a quit arrived on [chanQuit] with both sessions watching,
    each session would have been told to quit, would have acknowledged and
    stopped, and the loop would have returned at count zero.  No statement of
    the program sends that quit. *)
Example quit_path_stops_every_session :
  exists s0 s1,
    (boot "/A,/B" "/D" ex_world).2 = Some s0 /\
    run [StartWatch 0; StartWatch 1] s0 = Some s1 /\
    step GlobalQuit s1 = None /\
    exists s2,
      run [ForwardQuit 0; ForwardQuit 1; ExitAck 0; ExitAck 1;
           CloseWatcher 0; CloseWatcher 1] (router_receive RecvQuit s1) = Some s2 /\
      sessions s2 = [Stopped; Stopped] /\ exitCnt s2 = 0 /\ routerDone s2 = true.
Proof.
  eexists. eexists. split; [vm_compute; reflexivity|].
  split; [vm_compute; reflexivity|]. split; [reflexivity|].
  eexists. split; [vm_compute; reflexivity|]. done.
Qed.

(* ===================================================================== *)
(** * The scenario of the specification, run *)
(* ===================================================================== *)

(** Start-up removes [stale] and links nothing; the creation event for
    [/A/x.txt] links it; the deletion event takes the link away again. *)
Example scenario_initialize :
  exists w1 s,
    boot "/A,/B" "/D" ex_world = (w1, Some s) /\
    fs w1 !! "/D" = Some (Dir ∅ true) /\
    logs w1 = ["Starting pre-cleaner process"; "Unresolved link: /D/stale. Deleted"].
Proof. eexists. eexists. split; [vm_compute; reflexivity|]. split; reflexivity. Qed.

Example scenario_create_then_delete :
  let w1 := (boot "/A,/B" "/D" ex_world).1 in
  let w2 := (UpdateDirs (mkDir "/A") "/D" (creation "/A/x.txt" "/A") w1).1 in
  let w3 := (UpdateDirs (mkDir "/A") "/D" (deletion "/A/x.txt" "/A") w2).1 in
  fs w2 !! "/D" = Some (Dir {["x.txt" := Symlink "/A/x.txt"]} true) /\
  fs w3 !! "/D" = Some (Dir ∅ true) /\
  logs w3 = ["Starting pre-cleaner process"; "Unresolved link: /D/stale. Deleted";
             "Updated link: /A/x.txt"; "Delete link: /D/x.txt"].
Proof. vm_compute. done. Qed.


(* ===================================================================== *)
(** * More on the link synchronizer *)
(* ===================================================================== *)





Lemma Symlink_Ok_inv (fs fs' : gmap string dir) (old p : string) :
  os.Symlink fs old p = Ok fs' ->
  exists d n dr,
    split_path p = Some (d, n) /\ fs !! d = Some dr /\ valid_name n = true /\
    entries dr !! n = None /\ writable dr = true /\
    fs' = <[d := set_entries dr (<[n := Symlink old]> (entries dr))]> fs.
Proof.
  unfold os.Symlink. destruct (split_path p) as [[d n]|] eqn:Hs; [|done].
  destruct (fs !! d) as [dr|] eqn:Hd; [|done].
  destruct (valid_name n) eqn:Hv; [|done]. simpl.
  destruct (entries dr !! n) eqn:Hn; [done|].
  destruct (writable dr) eqn:Hw; [|done].
  intros E. inversion E. by exists d, n, dr.
Qed.


(** A link just made can be removed, and removing it gives back the file
    system there was. *)
Lemma Symlink_Remove (fs fs' : gmap string dir) (old p : string) :
  os.Symlink fs old p = Ok fs' -> os.Remove fs' p = Ok fs.
Proof.
  intros (d & n & dr & Hs & Hd & Hv & Hn & Hw & ->)%Symlink_Ok_inv.
  unfold os.Remove. rewrite Hs, lookup_insert_eq, Hv. simpl.
  rewrite lookup_insert_eq, Hw. simpl. f_equal.
  rewrite insert_insert_eq. unfold set_entries. simpl.
  rewrite (delete_insert_id _ _ _ Hn). apply insert_id. by destruct dr.
Qed.

(** X1.  Whenever [UpdateDirs] returns an error, whatever the event and the
    file system, it has changed nothing in the file system and has written
    one log line, the text of that error: no failure leaves a partial
    effect behind. *)
Theorem X1_UpdateDirs_error_leaves_world
    (d : Directory) (dist : string) (updated : UpdateHeader) (w : World) (err : error) :
  (UpdateDirs d dist updated w).2 = Some err ->
  (UpdateDirs d dist updated w).1 = log.Println (Error err) w.
Proof.
  unfold UpdateDirs, UpdateDirs_create, UpdateDirs_delete.
  destruct (IsCreate (Event updated)).
  - destruct (os.Symlink (fs w) _ _) as [fs'|e] eqn:Hs; simpl.
    + destruct (IsDelete (Event updated)); [|done].
      rewrite (Symlink_Remove _ _ _ _ Hs). done.
    + intros E. by inversion E.
  - destruct (IsDelete (Event updated)); [|done].
    destruct (os.Remove (fs w) _) as [fs'|e]; simpl; [done|].
    intros E. by inversion E.
Qed.

Lemma X1_witness :
  (UpdateDirs (mkDir "/A") "/D" (deletion "/A/x.txt" "/A") ex_world).1 =
  log.Println (Error (PathError "remove" "/D/x.txt" ENOENT)) ex_world.
Proof.
  apply (X1_UpdateDirs_error_leaves_world (mkDir "/A") "/D" (deletion "/A/x.txt" "/A")
           ex_world (PathError "remove" "/D/x.txt" ENOENT)).
  reflexivity.
Defined.







(** X3.  A deletion event undoes a creation event for the same file: when
    the creation returned nil, the deletion that follows returns nil too and
    the file system is exactly what it was before the two; the log holds the
    two lines. *)
Theorem X3_delete_undoes_create
    (d1 d2 : Directory) (dist : string) (created deleted : UpdateHeader) (w : World) :
  IsCreate (Event created) = true -> IsDelete (Event created) = false ->
  IsCreate (Event deleted) = false -> IsDelete (Event deleted) = true ->
  Name (Event deleted) = Name (Event created) ->
  (UpdateDirs d1 dist created w).2 = None ->
  UpdateDirs d2 dist deleted (UpdateDirs d1 dist created w).1 =
    (mkWorld (fs w)
       (logs w ++ ["Updated link: " +:+ Name (Event created);
                   "Delete link: " +:+ dest_path dist (path.Base (Name (Event created)))]),
     None).
Proof.
  intros Hc1 Hd1 Hc2 Hd2 Hname.
  unfold UpdateDirs, UpdateDirs_create, UpdateDirs_delete.
  rewrite Hc1, Hd1, Hc2, Hd2, Hname.
  destruct (os.Symlink (fs w) _ _) as [fs'|e] eqn:Hs; simpl; [|done].
  intros _. rewrite (Symlink_Remove _ _ _ _ Hs).
  unfold log.Println, set_fs. simpl. by rewrite <- app_assoc.
Qed.

Lemma X3_witness :
  UpdateDirs (mkDir "/A") "/D" (deletion "/A/x.txt" "/A")
    (UpdateDirs (mkDir "/A") "/D" (creation "/A/x.txt" "/A") ex_world).1 =
    (mkWorld (fs ex_world)
       (logs ex_world ++ ["Updated link: " +:+ "/A/x.txt";
                          "Delete link: " +:+ dest_path "/D" "x.txt"]),
     None).
Proof.
  apply (X3_delete_undoes_create (mkDir "/A") (mkDir "/A") "/D"
           (creation "/A/x.txt" "/A") (deletion "/A/x.txt" "/A") ex_world);
    reflexivity.
Defined.

(** X4.  The two blocks of [UpdateDirs] are not alternatives.  For an event
    that is both a creation and a deletion: when the link can be made it is
    made and removed again, both lines are logged, and the file system ends
    as it began; when making it fails, the error is returned from the first
    block and the second is never run, so an entry that was in the way is
    still there. *)
Theorem X4_create_and_delete_in_one_event
    (d : Directory) (dist : string) (updated : UpdateHeader) (w : World) :
  IsCreate (Event updated) = true -> IsDelete (Event updated) = true ->
  let f := Name (Event updated) in
  let p := dist +:+ "/" +:+ path.Base f in
  match os.Symlink (fs w) f p with
  | Ok _ =>
      UpdateDirs d dist updated w =
        (mkWorld (fs w) (logs w ++ ["Updated link: " +:+ f; "Delete link: " +:+ p]), None)
  | Failed err =>
      UpdateDirs d dist updated w = (log.Println (Error err) w, Some err)
  end.
Proof.
  intros Hc Hd f p. unfold UpdateDirs, UpdateDirs_create, UpdateDirs_delete.
  rewrite Hc, Hd. fold f. fold p.
  destruct (os.Symlink (fs w) f p) as [fs'|e] eqn:Hs; [|done].
  simpl. rewrite (Symlink_Remove _ _ _ _ Hs).
  unfold log.Println, set_fs. simpl. by rewrite <- app_assoc.
Qed.

Lemma X4_witness :
  UpdateDirs (mkDir "/A") "/D" (create_and_delete "/A/stale" "/A") ex_world =
    (log.Println (Error (LinkError "symlink" "/A/stale" "/D/stale" EEXIST)) ex_world,
     Some (LinkError "symlink" "/A/stale" "/D/stale" EEXIST)).
Proof.
  exact (X4_create_and_delete_in_one_event (mkDir "/A") "/D"
           (create_and_delete "/A/stale" "/A") ex_world eq_refl eq_refl).
Defined.

(* ===================================================================== *)
(** * More on the reconciliation pass *)
(* ===================================================================== *)

(** Among the entries the pass leaves, none is a dangling link. *)
Lemma none_dangling_after (fs : gmap string dir) (target : string) (dr : dir) (n : string) :
  valid_names dr -> fs !! target = Some dr ->
  is_Some (remove_names (dangling_links fs target dr) (entries dr) !! n) ->
  dangling (<[target := set_entries dr
               (remove_names (dangling_links fs target dr) (entries dr))]> fs) target n
  = false.
Proof.
  intros Hv Hd [nd Hn]. rewrite lookup_remove_names in Hn.
  case_bool_decide as Hin; [done|].
  assert (valid_name n = true) as Hvn by (by apply (Hv _ _ Hn)).
  assert (dangling fs target n = false) as Hdn.
  { destruct (dangling fs target n) eqn:E; [|done].
    exfalso. apply Hin, elem_of_dangling_links. eauto. }
  unfold dangling in *.
  rewrite resolves_remove_dangling; [|done|apply NoDup_dangling_links|].
  - rewrite (lookup_path_dest _ target n _ Hvn (lookup_insert_eq _ _ _)). simpl.
    rewrite lookup_remove_names, bool_decide_eq_false_2 by done.
    by rewrite (lookup_path_dest _ target n dr Hvn Hd) in Hdn.
  - apply Forall_forall. intros m Hm.
    apply elem_of_dangling_links in Hm as [[md Hmd] Hm]. split; [|done].
    by apply (Hv _ _ Hmd).
Qed.

Lemma sources_listable_insert (fs : gmap string dir) (sources : list Directory)
    (target : string) (dr dr' : dir) :
  fs !! target = Some dr -> sources_listable fs sources ->
  sources_listable (<[target := dr']> fs) sources.
Proof.
  intros Hd Hs. eapply Forall_impl; [exact Hs|]. intros s H. simpl in *.
  apply ReadDir_lookup. apply ReadDir_lookup in H.
  destruct (decide (Path s = target)) as [->|Hne].
  - rewrite lookup_insert_eq. eauto.
  - by rewrite lookup_insert_ne.
Qed.

Lemma valid_names_remove (dr : dir) (l : list string) :
  valid_names dr -> valid_names (set_entries dr (remove_names l (entries dr))).
Proof.
  intros Hv n nd Hn. simpl in Hn. rewrite lookup_remove_names in Hn.
  case_bool_decide; [done|]. by apply (Hv _ _ Hn).
Qed.

(** X5.  When the listings succeed the reconciliation pass changes nothing
    outside the destination directory and writes one log line for each link
    it goes to remove.  After a pass that ended without error the lines name
    exactly the entries that are gone.  The line is written before the
    removal is tried: a pass that ends with an error has logged as deleted
    one link that is still there, and has removed nothing. *)
Theorem X5_cleanDirs_frame_and_log
    (sources : list Directory) (target : string) (w : World) (dr : dir) :
  sources_listable (fs w) sources -> fs w !! target = Some dr -> valid_names dr ->
  let r := cleanDirs sources target w in
  (forall p, p <> target -> fs r.1 !! p = fs w !! p) /\
  exists dr' logged,
    fs r.1 !! target = Some dr' /\ writable dr' = writable dr /\
    logs r.1 = logs w ++ (unresolved_line target <$> logged) /\ NoDup logged /\
    (r.2 = None ->
       forall n, n ∈ logged <-> is_Some (entries dr !! n) /\ entries dr' !! n = None) /\
    (r.2 <> None -> dr' = dr /\ exists n, logged = [n] /\ dangling (fs w) target n = true).
Proof.
  intros Hs Hd Hv r. subst r.
  rewrite (cleanDirs_listed sources target w dr Hs Hd Hv).
  destruct (writable dr) eqn:Hw; simpl.
  - split; [intros p Hp; by rewrite lookup_insert_ne|].
    eexists. exists (dangling_links (fs w) target dr).
    split; [apply lookup_insert_eq|]. split; [done|]. split; [done|].
    split; [apply NoDup_dangling_links|]. split; [|done].
    intros _ n. simpl. rewrite lookup_remove_names. split.
    + intros Hin. rewrite bool_decide_eq_true_2 by done. split; [|done].
      by apply elem_of_dangling_links in Hin as [? _].
    + intros [Hsome Hgone]. case_bool_decide; [done|].
      rewrite Hgone in Hsome. by destruct Hsome.
  - destruct (dangling_links (fs w) target dr) as [|n0 l] eqn:Hdl; simpl.
    + split; [done|]. exists dr, []. split; [done|]. split; [done|].
      split; [by rewrite app_nil_r|]. split; [apply NoDup_nil_2|]. split; [|done].
      intros _ n. split; [by intros ?%elem_of_nil|].
      intros [[nd Hn] Hgone]. congruence.
    + split; [done|]. exists dr, [n0]. split; [done|]. split; [done|].
      split; [done|]. split; [apply NoDup_singleton|]. split; [done|].
      intros _. split; [done|]. exists n0. split; [done|].
      assert (n0 ∈ dangling_links (fs w) target dr) as Hin
        by (rewrite Hdl; apply list_elem_of_here).
      by apply elem_of_dangling_links in Hin as [_ ?].
Qed.

Lemma X5_witness :
  let r := cleanDirs [mkDir "/A"] "/D" (mkWorld ex_fs_readonly []) in
  (forall p, p <> "/D" -> fs r.1 !! p = ex_fs_readonly !! p) /\
  exists dr' logged,
    fs r.1 !! "/D" = Some dr' /\
    writable dr' = writable (Dir {["stale" := Symlink "/gone"]} false) /\
    logs r.1 = [] ++ (unresolved_line "/D" <$> logged) /\ NoDup logged /\
    (r.2 = None ->
       forall n, n ∈ logged <->
         is_Some (entries (Dir {["stale" := Symlink "/gone"]} false) !! n) /\
         entries dr' !! n = None) /\
    (r.2 <> None -> dr' = Dir {["stale" := Symlink "/gone"]} false /\
       exists n, logged = [n] /\ dangling ex_fs_readonly "/D" n = true).
Proof.
  apply (X5_cleanDirs_frame_and_log [mkDir "/A"] "/D" (mkWorld ex_fs_readonly [])
           (Dir {["stale" := Symlink "/gone"]} false)).
  - repeat constructor.
  - reflexivity.
  - apply map_Forall_singleton. reflexivity.
Defined.

(** X6.  The reconciliation pass is idempotent: run again, with any list of
    listable sources, on the world a pass without error has left, it removes
    nothing, logs nothing and returns nil. *)
Theorem X6_cleanDirs_idempotent
    (sources sources' : list Directory) (target : string) (w : World) (dr : dir) :
  sources_listable (fs w) sources -> sources_listable (fs w) sources' ->
  fs w !! target = Some dr -> valid_names dr ->
  (cleanDirs sources target w).2 = None ->
  cleanDirs sources' target (cleanDirs sources target w).1 =
    ((cleanDirs sources target w).1, None).
Proof.
  intros Hs Hs' Hd Hv.
  rewrite (cleanDirs_listed sources target w dr Hs Hd Hv).
  destruct (writable dr) eqn:Hw; simpl.
  - intros _.
    set (dr1 := set_entries dr (remove_names (dangling_links (fs w) target dr) (entries dr))).
    set (w1 := mkWorld (<[target := dr1]> (fs w))
                 (logs w ++ (unresolved_line target <$> dangling_links (fs w) target dr))).
    assert (dangling_links (fs w1) target dr1 = []) as Hnone.
    { apply elem_of_nil_inv. intros n [Hsome Hdang]%elem_of_dangling_links.
      pose proof (none_dangling_after (fs w) target dr n Hv Hd Hsome) as Hf.
      fold dr1 in Hf. simpl in Hdang. congruence. }
    rewrite (cleanDirs_listed sources' target w1 dr1).
    + rewrite Hnone. unfold dr1 at 1. simpl. rewrite Hw. unfold remove_names. simpl.
      f_equal. unfold w1. f_equal.
      * fold dr1. rewrite set_entries_id. by rewrite insert_insert_eq.
      * by rewrite app_nil_r.
    + by apply (sources_listable_insert (fs w) sources' target dr dr1).
    + apply lookup_insert_eq.
    + by apply valid_names_remove.
  - destruct (dangling_links (fs w) target dr) as [|n0 l] eqn:Hdl; simpl; [|done].
    intros _. rewrite (cleanDirs_listed sources' target w dr Hs' Hd Hv), Hw, Hdl. done.
Qed.

Lemma X6_witness :
  cleanDirs [mkDir "/B"] "/D" (cleanDirs ex_sources "/D" ex_world).1 =
    ((cleanDirs ex_sources "/D" ex_world).1, None).
Proof.
  apply (X6_cleanDirs_idempotent ex_sources [mkDir "/B"] "/D" ex_world ex_D).
  - repeat constructor.
  - repeat constructor.
  - reflexivity.
  - apply map_Forall_singleton. reflexivity.
  - vm_compute. reflexivity.
Defined.














(** On that destination the pass leaves the link to the file and the plain
    file, and takes the cycle and the link to the dangling link. *)
Example cleanDirs_on_links :
  fs (cleanDirs [mkDir "/A"] "/D" (mkWorld ex_fs_links [])).1 !! "/D"
  = Some (Dir (<["good" := Symlink "/A/x.txt"]> {["plain" := RegularFile]}) true).
Proof. vm_compute. reflexivity. Qed.

(* ===================================================================== *)
(** * More on the event router and the forwarding of events *)
(* ===================================================================== *)

(** X11.  Whatever its count, the control loop starts one goroutine
    [UpdateDirs] for each notification it receives, in the order received,
    each for the destination and with the directory the notification
    carries; it sends, for each quit received, one quit per managed
    directory; it does nothing else; and what arrives after its return is
    never handled. *)
Theorem X11_router_dispatches_in_order
    (dirs : list Directory) (dist : string) (inbox : list msg) (c : Z) :
  let r := router dirs dist c inbox in
  exists consumed,
    inbox = consumed ++ unread r /\
    goroutines (emitted r) = (fun u => (HPath u, dist, u)) <$> updates_of consumed /\
    sends_of (emitted r) =
      List.concat (map (fun _ => map WatcherQuit dirs) (List.filter is_quit consumed)) /\
    (returned r = false -> unread r = []).
Proof.
  revert c. induction inbox as [|m rest IH]; intros c.
  - exists []. done.
  - assert (goroutines (router_select dirs dist c m).1
            = (fun u => (HPath u, dist, u)) <$> updates_of [m]) as Hg.
    { destruct m; simpl; try done. unfold goroutines.
      clear. by induction dirs as [|d dirs IHd]. }
    assert (sends_of (router_select dirs dist c m).1
            = List.concat (map (fun _ => map WatcherQuit dirs) (List.filter is_quit [m])))
      as Hq.
    { destruct m; simpl; try done. rewrite app_nil_r. unfold sends_of.
      clear. induction dirs as [|d dirs IHd]; [done|]. simpl. by f_equal. }
    simpl. destruct (router_select dirs dist c m) as [acts c'] eqn:Hsel.
    simpl in Hg, Hq.
    destruct (c' =? 0).
    + exists [m]. simpl. split; [done|]. split; [done|]. split; [|done].
      by rewrite Hq.
    + destruct (IH c') as (consumed & Hin & Hgo & Hse & Hun).
      exists (m :: consumed). simpl.
      split; [by rewrite Hin at 1|].
      split; [|split; [|done]].
      * unfold goroutines in *. rewrite omap_app, Hgo, Hg.
        unfold updates_of. by destruct m.
      * unfold sends_of in *. rewrite omap_app, Hse, Hq.
        destruct m; simpl; try done. by rewrite app_nil_r.
Qed.





(* ===================================================================== *)
(** * More on the running daemon *)
(* ===================================================================== *)





Example quit_run_reaches_stopped : run ex_quit_run ex_sys_quit = Some ex_sys_stopped.
Proof. vm_compute. reflexivity. Qed.


Lemma handler_fs (sig : Z) (w : World) : fs (handler sig w).1 = fs w.
Proof.
  unfold handler, mbind, Proc_bind, log_Println, os_Exit, mret, Proc_ret.
  simpl. by destruct (sig =? syscall.SIGTERM).
Qed.

Lemma StartFSWatch_fs (d : Directory) (w : World) : fs (StartFSWatch d w) = fs w.
Proof. unfold StartFSWatch. by destruct (fs w !! Path d). Qed.

Lemma step_keeps_fs (l : label) (s s' : System) :
  step l s = Some s' -> is_RunTask l = false -> fs (world s') = fs (world s).
Proof.
  intros Hstep Hl. unfold step in Hstep. destruct (exited s); [done|].
  destruct l as [i|i ev|k| |i|i|i|sig]; try done.
  - destruct (sessions s !! i) as [st|]; [|done].
    destruct (manageDirs s !! i) as [d|]; [|done].
    destruct (InitFSWatch st WatchAdded); [|done].
    inversion Hstep; subst. simpl. apply StartFSWatch_fs.
  - destruct (sessions s !! i) as [st|]; [|done].
    destruct (manageDirs s !! i); [|done].
    destruct (_ && _); [|done]. by inversion Hstep; subst.
  - destruct (_ && _); [|done]. inversion Hstep; subst.
    unfold router_receive. by simpl.
  - destruct (forwarding s) as [|ch rest]; [done|].
    destruct (sessions s !! i) as [st|]; [|done].
    destruct (manageDirs s !! i); [|done].
    destruct (InitFSWatch st QuitReceived); [|done].
    destruct (bool_decide _); [|done]. by inversion Hstep; subst.
  - destruct (sessions s !! i) as [st|]; [|done].
    destruct (InitFSWatch st ExitSent); [|done].
    destruct (at_select s); [|done]. by inversion Hstep; subst.
  - destruct (sessions s !! i) as [st|]; [|done].
    destruct (InitFSWatch st WatcherClosed); [|done].
    by inversion Hstep; subst.
  - destruct (bool_decide _); [|done].
    pose proof (handler_fs sig (world s)) as Hh.
    destruct (handler sig (world s)) as [w1 ctl]. by inversion Hstep; subst.
Qed.

Lemma step_keeps_no_task (l : label) (s s' : System) :
  step l s = Some s' -> is_Notify l = false -> tasks s = [] -> tasks s' = [].
Proof.
  intros Hstep Hl Ht. unfold step in Hstep. destruct (exited s); [done|].
  destruct l as [i|i ev|k| |i|i|i|sig]; try done.
  - destruct (sessions s !! i) as [st|]; [|done].
    destruct (manageDirs s !! i) as [d|]; [|done].
    destruct (InitFSWatch st WatchAdded); [|done]. by inversion Hstep; subst.
  - by rewrite Ht in Hstep.
  - by rewrite andb_false_r in Hstep.
  - destruct (forwarding s) as [|ch rest]; [done|].
    destruct (sessions s !! i) as [st|]; [|done].
    destruct (manageDirs s !! i); [|done].
    destruct (InitFSWatch st QuitReceived); [|done].
    destruct (bool_decide _); [|done]. by inversion Hstep; subst.
  - destruct (sessions s !! i) as [st|]; [|done].
    destruct (InitFSWatch st ExitSent); [|done].
    destruct (at_select s); [|done]. inversion Hstep; subst. simpl.
    by rewrite Ht.
  - destruct (sessions s !! i) as [st|]; [|done].
    destruct (InitFSWatch st WatcherClosed); [|done].
    by inversion Hstep; subst.
  - destruct (bool_decide _); [|done].
    destruct (handler sig (world s)) as [w1 ctl]. by inversion Hstep; subst.
Qed.

(** X14.  The running daemon changes the file system nowhere but in the
    goroutines [UpdateDirs], and starts those only for notifications: a run
    in which no such goroutine runs, and a run that starts with none waiting
    and in which no event is notified, end with the file system they started
    with; watch registration, quit forwarding, exit counting, watcher
    closing and signals only ever write log lines. *)
Theorem X14_only_UpdateDirs_changes_files (ls : list label) (s s' : System) :
  run ls s = Some s' ->
  forallb (fun l => negb (is_RunTask l)) ls = true \/
  (tasks s = [] /\ forallb (fun l => negb (is_Notify l)) ls = true) ->
  fs (world s') = fs (world s).
Proof.
  intros Hrun [Hno|[Ht Hno]].
  - revert s Hrun. induction ls as [|l ls IH]; intros s Hrun; simpl in *.
    + by inversion Hrun.
    + apply andb_true_iff in Hno as [Hl Hno].
      destruct (step l s) as [s1|] eqn:Hstep; [|done].
      rewrite (IH Hno s1 Hrun). apply (step_keeps_fs l s s1 Hstep).
      by apply negb_true_iff.
  - revert s Hrun Ht. induction ls as [|l ls IH]; intros s Hrun Ht; simpl in *.
    + by inversion Hrun.
    + apply andb_true_iff in Hno as [Hl Hno]. apply negb_true_iff in Hl.
      destruct (step l s) as [s1|] eqn:Hstep; [|done].
      rewrite (IH Hno s1 Hrun (step_keeps_no_task l s s1 Hstep Hl Ht)).
      apply (step_keeps_fs l s s1 Hstep).
      destruct l; try done. exfalso. unfold step in Hstep.
      destruct (exited s); [done|]. by rewrite Ht in Hstep.
Qed.

Lemma X14_witness :
  fs (world (default ex_sys_quit
               (run [ForwardQuit 0; ForwardQuit 1; ExitAck 0; Deliver syscall.SIGHUP;
                     ExitAck 1; CloseWatcher 0; Deliver syscall.SIGTERM] ex_sys_quit)))
  = fs (world ex_sys_quit).
Proof.
  apply (X14_only_UpdateDirs_changes_files
           [ForwardQuit 0; ForwardQuit 1; ExitAck 0; Deliver syscall.SIGHUP;
            ExitAck 1; CloseWatcher 0; Deliver syscall.SIGTERM] ex_sys_quit).
  - vm_compute. reflexivity.
  - right. split; reflexivity.
Defined.

Lemma outstanding_insert (l : list SessionState) (i : nat) (st st' : SessionState) :
  l !! i = Some st ->
  outstanding (<[i := st']> l) =
    outstanding l - (if acked st then 0 else 1) + (if acked st' then 0 else 1).
Proof.
  unfold outstanding. revert i. induction l as [|x l IH]; intros i Hi; [done|].
  destruct i as [|i]; simpl in *.
  - inversion Hi; subst. destruct (acked st), (acked st'); simpl; lia.
  - specialize (IH i Hi). destruct (acked x); simpl; lia.
Qed.

Lemma outstanding_zero (l : list SessionState) :
  outstanding l = 0 -> Forall (fun st => acked st = true) l.
Proof.
  unfold outstanding. induction l as [|x l IH]; simpl; [by constructor|].
  destruct (acked x) eqn:E; simpl; intros H; [|lia].
  constructor; [done|by apply IH].
Qed.

Lemma outstanding_nonneg (l : list SessionState) : 0 <= outstanding l.
Proof. unfold outstanding. lia. Qed.

Lemma InitFSWatch_cases (st st' : SessionState) (e : SessionEvent) :
  InitFSWatch st e = Some st' ->
  acked st' = acked st \/ (e = ExitSent /\ acked st = false /\ acked st' = true).
Proof. destruct st, e; simpl; intros H; inversion H; subst; auto. Qed.

Lemma step_count_inv (l : label) (s s' : System) :
  count_inv s -> step l s = Some s' -> count_inv s'.
Proof.
  intros (Hc & Hb & Hdone) Hstep. unfold step in Hstep. destruct (exited s); [done|].
  pose proof (outstanding_nonneg (sessions s)) as Hnn.
  destruct l as [i|i ev|k| |i|i|i|sig].
  - destruct (sessions s !! i) as [st|] eqn:Hi; [|done].
    destruct (manageDirs s !! i); [|done].
    destruct (InitFSWatch st WatchAdded) as [st'|] eqn:Hf; [|done].
    inversion Hstep; subst. unfold count_inv. simpl.
    rewrite (outstanding_insert _ i st st' Hi).
    destruct (InitFSWatch_cases _ _ _ Hf) as [-> |[? _]]; [|done].
    destruct (acked st); (split; [lia|]); (split; [lia|done]).
  - destruct (sessions s !! i) as [st|]; [|done].
    destruct (manageDirs s !! i); [|done].
    destruct (_ && _); [|done]. inversion Hstep; subst.
    unfold count_inv, router_receive. simpl. split; [done|]. split; [done|].
    by intros ?%Z.eqb_eq.
  - destruct (tasks s !! k) as [[[? ?] ?]|]; [|done]. by inversion Hstep; subst.
  - by rewrite andb_false_r in Hstep.
  - destruct (forwarding s) as [|ch rest]; [done|].
    destruct (sessions s !! i) as [st|] eqn:Hi; [|done].
    destruct (manageDirs s !! i); [|done].
    destruct (InitFSWatch st QuitReceived) as [st'|] eqn:Hf; [|done].
    destruct (bool_decide _); [|done]. inversion Hstep; subst.
    unfold count_inv. simpl. rewrite (outstanding_insert _ i st st' Hi).
    destruct (InitFSWatch_cases _ _ _ Hf) as [-> |[? _]]; [|done].
    assert (outstanding (sessions s) - (if acked st then 0 else 1)
              + (if acked st then 0 else 1) = outstanding (sessions s)) as ->
      by (destruct (acked st); lia).
    split; [done|]. split; [done|].
    destruct rest; [by intros ?%Z.eqb_eq|done].
  - destruct (sessions s !! i) as [st|] eqn:Hi; [|done].
    destruct (InitFSWatch st ExitSent) as [st'|] eqn:Hf; [|done].
    destruct (at_select s); [|done]. inversion Hstep; subst.
    unfold count_inv, router_receive. simpl.
    rewrite (outstanding_insert _ i st st' Hi).
    assert (acked st = false /\ acked st' = true) as [-> ->]
      by (destruct st; simpl in Hf; inversion Hf; done).
    assert (1 <= outstanding (sessions s)) as Hpos.
    { pose proof (outstanding_insert _ i st Stopped Hi) as E.
      pose proof (outstanding_nonneg (<[i := Stopped]> (sessions s))).
      destruct st; simpl in *; try done; lia. }
    rewrite int_wrap_small by lia.
    split; [lia|]. split; [lia|]. by intros ?%Z.eqb_eq.
  - destruct (sessions s !! i) as [st|] eqn:Hi; [|done].
    destruct (InitFSWatch st WatcherClosed) as [st'|] eqn:Hf; [|done].
    inversion Hstep; subst. unfold count_inv. simpl.
    rewrite (outstanding_insert _ i st st' Hi).
    destruct (InitFSWatch_cases _ _ _ Hf) as [-> |[? _]]; [|done].
    destruct (acked st); (split; [lia|]); (split; [lia|done]).
  - destruct (bool_decide _); [|done].
    destruct (handler sig (world s)) as [w1 ctl]. by inversion Hstep; subst.
Qed.

Lemma count_inv_init (dirs : list Directory) (dist : string) (w : World) :
  Z.of_nat (length dirs) < 2 ^ 63 ->
  count_inv (init dirs dist (Z.of_nat (length dirs)) w).
Proof.
  intros Hlen. unfold count_inv. simpl.
  assert (outstanding (map (fun _ => Idle) dirs) = Z.of_nat (length dirs)) as ->.
  { unfold outstanding. f_equal. clear. induction dirs; simpl; [done|]. by f_equal. }
  done.
Qed.

(** X15.  The router's count is, at every moment of every run, the number of
    sessions whose exit it has not received, and its loop has returned only
    at count zero: so the loop never returns while a session has still to
    send its exit.  This holds from the booted daemon on, and would hold
    through a quit if one arrived. *)
Theorem X15_router_count_is_sessions_outstanding (ls : list label) (s s' : System) :
  count_inv s -> run ls s = Some s' ->
  exitCnt s' = outstanding (sessions s') /\
  (routerDone s' = true -> Forall (fun st => st = Releasing \/ st = Stopped) (sessions s')).
Proof.
  intros Hinv Hrun.
  assert (count_inv s') as (Hc & _ & Hdone).
  { revert s Hinv Hrun. induction ls as [|l ls IH]; intros s Hinv Hrun; simpl in Hrun.
    - by inversion Hrun; subst.
    - destruct (step l s) as [s1|] eqn:Hstep; [|done].
      apply (IH s1); [|done]. by eapply step_count_inv. }
  split; [done|]. intros Hd.
  eapply Forall_impl; [apply outstanding_zero; rewrite <- Hc; by apply Hdone|].
  intros st Hst. destruct st; simpl in Hst; auto; done.
Qed.

Lemma X15_witness :
  exitCnt ex_sys_stopped = outstanding (sessions ex_sys_stopped) /\
  (routerDone ex_sys_stopped = true ->
   Forall (fun st => st = Releasing \/ st = Stopped) (sessions ex_sys_stopped)).
Proof.
  apply (X15_router_count_is_sessions_outstanding ex_quit_run ex_sys_quit ex_sys_stopped).
  - split; [reflexivity|]. split; [reflexivity|]. intros H. discriminate H.
  - vm_compute. reflexivity.
Defined.

(* ===================================================================== *)
(** * More on start-up *)
(* ===================================================================== *)



(* ===================================================================== *)
(** * The synchronizer and the pass together *)
(* ===================================================================== *)


